(** * SORT: four-wide ray/triangle intersection (src/shape/simd_triangle.h)

    A shallow embedding of [Triangle4] (PushTriangle, PackData, Reset) and of
    [intersectTriangle4], followed by the properties the specification
    states about them.

    Data representation.
    - A C [float] and a 32-bit lane of an [__m128] register are the same
      thing in the source (the mask register is filled with [_mm_set_ps],
      re-read as [__m128i], and stored through a [float*]), so one lane is
      a 32-bit pattern held in a [Z]; arithmetic decodes the pattern to an
      IEEE-754 binary32 value, computes with the Standard Library's
      [SpecFloat] (round to nearest even, the SSE default mode) and encodes
      the result back.
    - [SpecFloat] has a single NaN.  A NaN result is encoded as the x86
      default NaN [0xFFC00000]; no NaN pattern is ever inspected bitwise by
      the code, only through comparisons.
    - A possibly-null [const Triangle*] is an [option Triangle]. *)

From Stdlib Require Import ZArith Bool List Lia.
From Stdlib Require Import Floats.SpecFloat.
Import ListNotations.
Local Open Scope Z_scope.

(** ** IEEE-754 binary32 on bit patterns *)

Module Binary32.

Definition prec : Z := 24.
Definition emax : Z := 128.

(** Bit pattern of a [float]: sign (bit 31), biased exponent (bits 30..23),
    fraction (bits 22..0). *)
Definition bits := Z.

Definition sign_of (w : bits) : bool := Z.testbit w 31.
Definition expo_of (w : bits) : Z := Z.land (Z.shiftr w 23) 255.
Definition frac_of (w : bits) : Z := Z.land w 8388607.

Definition decode (w : bits) : spec_float :=
  let s := sign_of w in
  let e := expo_of w in
  let m := frac_of w in
  if e =? 0 then
    match m with
    | Zpos p => S754_finite s p (-149)
    | _ => S754_zero s
    end
  else if e =? 255 then
    (if m =? 0 then S754_infinity s else S754_nan)
  else
    match Z.lor m 8388608 with
    | Zpos p => S754_finite s p (e - 150)
    | _ => S754_nan
    end.

Definition sign_bit (s : bool) : bits := if s then Z.shiftl 1 31 else 0.

Definition default_nan : bits := 4290772992. (* 0xFFC00000 *)

Definition encode (f : spec_float) : bits :=
  match f with
  | S754_zero s => sign_bit s
  | S754_infinity s => Z.lor (sign_bit s) 2139095040 (* 0x7F800000 *)
  | S754_nan => default_nan
  | S754_finite s m e =>
      if Zpos m <? 8388608
      then Z.lor (sign_bit s) (Zpos m)
      else Z.lor (sign_bit s)
             (Z.lor (Z.shiftl (e + 150) 23) (Z.land (Zpos m) 8388607))
  end.

Definition lift2 (op : spec_float -> spec_float -> spec_float)
    (a b : bits) : bits :=
  encode (op (decode a) (decode b)).

Definition fadd : bits -> bits -> bits := lift2 (SFadd prec emax).
Definition fsub : bits -> bits -> bits := lift2 (SFsub prec emax).
Definition fmul : bits -> bits -> bits := lift2 (SFmul prec emax).
Definition fdiv : bits -> bits -> bits := lift2 (SFdiv prec emax).

(** The C comparison operators on [float]; every one is false on a NaN. *)
Definition flt (a b : bits) : bool := SFltb (decode a) (decode b).
Definition fle (a b : bits) : bool := SFleb (decode a) (decode b).
Definition fgt (a b : bits) : bool := SFltb (decode b) (decode a).
Definition fge (a b : bits) : bool := SFleb (decode b) (decode a).
Definition feq (a b : bits) : bool := SFeqb (decode a) (decode b).

(** Conversion of an [unsigned int] value to [float] (round to nearest
    even), as performed when an integer is passed where a [float]
    parameter is expected. *)
Definition of_uint (n : Z) : bits :=
  encode (binary_normalize prec emax n 0 false).

Definition is_zero (w : bits) : Prop := exists s, decode w = S754_zero s.

(** A zero of either sign, or the NaN. *)
Definition zero_or_nan (f : spec_float) : Prop :=
  (exists s, f = S754_zero s) \/ f = S754_nan.

(** Exponent range of the finite binary32 values. *)
Definition in_range (f : spec_float) : Prop :=
  match f with
  | S754_finite _ _ e => -149 <= e <= 104
  | _ => True
  end.

Definition set_sign (s : bool) (f : spec_float) : spec_float :=
  match f with
  | S754_zero _ => S754_zero s
  | S754_infinity _ => S754_infinity s
  | S754_nan => S754_nan
  | S754_finite _ m e => S754_finite s m e
  end.

(** Some constants of the source and of the test scenarios. *)
Definition zero : bits := 0.
Definition one : bits := 1065353216.        (* 0x3F800000 =  1.0f *)
Definition neg_one : bits := 3212836864.    (* 0xBF800000 = -1.0f *)
Definition two : bits := 1073741824.        (* 0x40000000 =  2.0f *)
Definition three : bits := 1077936128.      (* 0x40400000 =  3.0f *)
Definition four : bits := 1082130432.       (* 0x40800000 =  4.0f *)
Definition five : bits := 1084227584.       (* 0x40A00000 =  5.0f *)
Definition neg_five : bits := 3231711232.   (* 0xC0A00000 = -5.0f *)
Definition eight : bits := 1090519040.      (* 0x41000000 =  8.0f *)

End Binary32.

Import Binary32.

(** ** Four-lane registers and the SSE intrinsics used by the source *)

Inductive Lane := L0 | L1 | L2 | L3.

Definition all_lanes : list Lane := [L0; L1; L2; L3].

(** Four parallel slots: an [__m128] register when [A] is [bits], and the
    C arrays of four elements of the source otherwise. *)
Record Quad (A : Type) := mkQuad { q0 : A; q1 : A; q2 : A; q3 : A }.
Arguments mkQuad {A} _ _ _ _.
Arguments q0 {A} _.
Arguments q1 {A} _.
Arguments q2 {A} _.
Arguments q3 {A} _.

Definition lane {A} (v : Quad A) (i : Lane) : A :=
  match i with L0 => q0 v | L1 => q1 v | L2 => q2 v | L3 => q3 v end.

Definition set_lane {A} (v : Quad A) (i : Lane) (a : A) : Quad A :=
  match i with
  | L0 => mkQuad a (q1 v) (q2 v) (q3 v)
  | L1 => mkQuad (q0 v) a (q2 v) (q3 v)
  | L2 => mkQuad (q0 v) (q1 v) a (q3 v)
  | L3 => mkQuad (q0 v) (q1 v) (q2 v) a
  end.

Definition quad_map2 {A B C} (f : A -> B -> C) (a : Quad A) (b : Quad B) : Quad C :=
  mkQuad (f (q0 a) (q0 b)) (f (q1 a) (q1 b)) (f (q2 a) (q2 b)) (f (q3 a) (q3 b)).

Definition quad_map {A B} (f : A -> B) (a : Quad A) : Quad B :=
  mkQuad (f (q0 a)) (f (q1 a)) (f (q2 a)) (f (q3 a)).

Definition m128 := Quad bits.

Definition all_ones : bits := 4294967295. (* 0xFFFFFFFF *)

Definition bool_mask (b : bool) : bits := if b then all_ones else 0.

(** [_mm_set_ps( e3 , e2 , e1 , e0 )]: the last argument goes to lane 0. *)
Definition _mm_set_ps (e3 e2 e1 e0 : bits) : m128 := mkQuad e0 e1 e2 e3.
Definition _mm_set_ps1 (a : bits) : m128 := mkQuad a a a a.

Definition _mm_add_ps : m128 -> m128 -> m128 := quad_map2 fadd.
Definition _mm_sub_ps : m128 -> m128 -> m128 := quad_map2 fsub.
Definition _mm_mul_ps : m128 -> m128 -> m128 := quad_map2 fmul.
Definition _mm_and_ps : m128 -> m128 -> m128 := quad_map2 Z.land.

Definition _mm_cmpge_ps : m128 -> m128 -> m128 :=
  quad_map2 (fun a b => bool_mask (fge a b)).
Definition _mm_cmple_ps : m128 -> m128 -> m128 :=
  quad_map2 (fun a b => bool_mask (fle a b)).
Definition _mm_cmpgt_ps : m128 -> m128 -> m128 :=
  quad_map2 (fun a b => bool_mask (fgt a b)).
Definition _mm_cmplt_ps : m128 -> m128 -> m128 :=
  quad_map2 (fun a b => bool_mask (flt a b)).
(** Not-equal is the one unordered predicate: true when an operand is NaN. *)
Definition _mm_cmpneq_ps : m128 -> m128 -> m128 :=
  quad_map2 (fun a b => bool_mask (negb (feq a b))).

(** [_mm_movemask_ps]: bit [i] of the result is the sign bit of lane [i]. *)
Definition msb (w : bits) : bool := Z.testbit w 31.
Definition _mm_movemask_ps (v : m128) : Z :=
  Z.b2z (msb (q0 v)) + 2 * Z.b2z (msb (q1 v))
  + 4 * Z.b2z (msb (q2 v)) + 8 * Z.b2z (msb (q3 v)).

(** ** Geometry records

    [Point], [Vector], [Vector2f], [MeshVertex], [Ray] and [Intersection]
    live in other headers (math/point.h, math/ray.h, math/intersection.h,
    ...); the records below carry the members that simd_triangle.h reads
    and writes. *)

Record Vector := mkVector { c_x : bits; c_y : bits; c_z : bits }.
Definition Point := Vector.
Record Vector2f := mkVector2f { uv_x : bits; uv_y : bits }.

Record MeshVertex := mkMeshVertex {
  m_position : Point;
  m_normal : Vector;
  m_tangent : Vector;
  m_texCoord : Vector2f
}.

(** The three values an index into [p0[3]], [p1[3]], [p2[3]] may take. *)
Inductive Axis := AxisX | AxisY | AxisZ.

Record Ray := mkRay {
  m_Ori : Point;
  m_Dir : Vector;
  m_fMin : bits;
  m_fMax : bits;
  m_ori_x : m128;
  m_ori_y : m128;
  m_ori_z : m128;
  m_local_x : Axis;
  m_local_y : Axis;
  m_local_z : Axis;
  m_sse_scale_x : m128;
  m_sse_scale_y : m128;
  m_sse_scale_z : m128
}.

Module Intersection.
Record T := mk {
  intersect : Point;
  gnormal : Vector;
  normal : Vector;
  tangent : Vector;
  view : Vector;
  u : bits;
  v : bits;
  t : bits
}.
End Intersection.

(** The vector library (math/vector.h, math/point.h, math/ray.h): the
    overloaded operators and helpers that the attribute-resolution tail of
    [intersectTriangle4] calls. *)
Class VectorMath := {
  Normalize : Vector -> Vector;
  Cross : Vector -> Vector -> Vector;
  point_sub : Point -> Point -> Vector;
  vec_scale : bits -> Vector -> Vector;
  vec_add : Vector -> Vector -> Vector;
  vec_neg : Vector -> Vector;
  uv_scale : bits -> Vector2f -> Vector2f;
  uv_add : Vector2f -> Vector2f -> Vector2f;
  ray_at : Ray -> bits -> Point
}.

(** What a call leaves behind: the returned [bool] together with the final
    content of [*ret] ([None] when [ret] is the null pointer), or undefined
    behaviour (an out-of-bounds or null read). *)
Inductive outcome :=
  | Returned (b : bool) (ret : option Intersection.T)
  | Undefined.

(** ** Triangle4 and intersectTriangle4 *)

Section SimdTriangle.

(** [Triangle] (shape/triangle.h) is only reached through
    [triangle->GetMeshVisual()->m_memory->m_vertices[ triangle->GetIndices().m_id[k] ]];
    [vertex_at tri k] is that vertex, for [k] in 0..2. *)
Context {Triangle : Type}.
Context (vertex_at : Triangle -> nat -> MeshVertex).

(** [_mm_rcp_ps] returns an approximation of the reciprocal whose value
    depends on the processor; [rcp] is that per-lane function. *)
Context (rcp : bits -> bits).

Context {VM : VectorMath}.

Definition _mm_rcp_ps : m128 -> m128 := quad_map rcp.

Record Triangle4 := mkTriangle4 {
  m_p0_x : m128; m_p0_y : m128; m_p0_z : m128;
  m_p1_x : m128; m_p1_y : m128; m_p1_z : m128;
  m_p2_x : m128; m_p2_y : m128; m_p2_z : m128;
  m_mask : m128;
  m_ori_pri : Quad (option Triangle)
}.

Definition with_ori_pri (t4 : Triangle4) (pri : Quad (option Triangle)) : Triangle4 :=
  mkTriangle4 (m_p0_x t4) (m_p0_y t4) (m_p0_z t4)
              (m_p1_x t4) (m_p1_y t4) (m_p1_z t4)
              (m_p2_x t4) (m_p2_y t4) (m_p2_z t4)
              (m_mask t4) pri.

Definition is_null (p : option Triangle) : bool :=
  match p with None => true | Some _ => false end.

(** [bool PushTriangle( const Triangle* tri )]: the result pairs the
    returned value with the updated object. *)
Definition PushTriangle (tri : option Triangle) (t4 : Triangle4) : bool * Triangle4 :=
  let pri := m_ori_pri t4 in
  if is_null (lane pri L0) then (false, with_ori_pri t4 (set_lane pri L0 tri))
  else if is_null (lane pri L1) then (false, with_ori_pri t4 (set_lane pri L1 tri))
  else if is_null (lane pri L2) then (false, with_ori_pri t4 (set_lane pri L2 tri))
  else (true, with_ori_pri t4 (set_lane pri L3 tri)).

(** The local arrays of [PackData]. *)
Record PackArrays := mkPackArrays {
  a_mask : Quad Z;
  a_p0_x : Quad bits; a_p0_y : Quad bits; a_p0_z : Quad bits;
  a_p1_x : Quad bits; a_p1_y : Quad bits; a_p1_z : Quad bits;
  a_p2_x : Quad bits; a_p2_y : Quad bits; a_p2_z : Quad bits
}.

(** Body of the [for] loop of [PackData] at index [i]. *)
Definition pack_lane (i : Lane) (triangle : Triangle) (a : PackArrays) : PackArrays :=
  let mv0 := vertex_at triangle 0 in
  let mv1 := vertex_at triangle 1 in
  let mv2 := vertex_at triangle 2 in
  mkPackArrays
    (set_lane (a_mask a) i 4294967295)
    (set_lane (a_p0_x a) i (c_x (m_position mv0)))
    (set_lane (a_p0_y a) i (c_y (m_position mv0)))
    (set_lane (a_p0_z a) i (c_z (m_position mv0)))
    (set_lane (a_p1_x a) i (c_x (m_position mv1)))
    (set_lane (a_p1_y a) i (c_y (m_position mv1)))
    (set_lane (a_p1_z a) i (c_z (m_position mv1)))
    (set_lane (a_p2_x a) i (c_x (m_position mv2)))
    (set_lane (a_p2_y a) i (c_y (m_position mv2)))
    (set_lane (a_p2_z a) i (c_z (m_position mv2))).

(** [for( auto i = 0 ; i < 4 && m_ori_pri[i] ; ++i )]: the loop stops at
    the first null back-reference. *)
Fixpoint pack_loop (todo : list Lane) (pri : Quad (option Triangle))
    (a : PackArrays) : PackArrays :=
  match todo with
  | [] => a
  | i :: rest =>
      match lane pri i with
      | None => a
      | Some triangle => pack_loop rest pri (pack_lane i triangle a)
      end
  end.

(** The nine coordinate arrays are declared without initialiser: their
    content before the loop, [stack], is whatever the stack holds.  The
    [mask] array is zero-initialised. *)
Record StackJunk := mkStackJunk {
  j_p0_x : Quad bits; j_p0_y : Quad bits; j_p0_z : Quad bits;
  j_p1_x : Quad bits; j_p1_y : Quad bits; j_p1_z : Quad bits;
  j_p2_x : Quad bits; j_p2_y : Quad bits; j_p2_z : Quad bits
}.

Definition pack_init (stack : StackJunk) : PackArrays :=
  mkPackArrays (mkQuad 0 0 0 0)
    (j_p0_x stack) (j_p0_y stack) (j_p0_z stack)
    (j_p1_x stack) (j_p1_y stack) (j_p1_z stack)
    (j_p2_x stack) (j_p2_y stack) (j_p2_z stack).

Definition set_ps_of (arr : Quad bits) : m128 :=
  _mm_set_ps (lane arr L3) (lane arr L2) (lane arr L1) (lane arr L0).

(** [_mm_set_ps] takes [float] arguments: the [unsigned int] elements of
    [mask] are converted to [float] by value on the way in. *)
Definition PackData (stack : StackJunk) (t4 : Triangle4) : Triangle4 :=
  let a := pack_loop all_lanes (m_ori_pri t4) (pack_init stack) in
  mkTriangle4
    (set_ps_of (a_p0_x a)) (set_ps_of (a_p0_y a)) (set_ps_of (a_p0_z a))
    (set_ps_of (a_p1_x a)) (set_ps_of (a_p1_y a)) (set_ps_of (a_p1_z a))
    (set_ps_of (a_p2_x a)) (set_ps_of (a_p2_y a)) (set_ps_of (a_p2_z a))
    (_mm_set_ps (of_uint (lane (a_mask a) L3)) (of_uint (lane (a_mask a) L2))
                (of_uint (lane (a_mask a) L1)) (of_uint (lane (a_mask a) L0)))
    (m_ori_pri t4).

Definition Reset (t4 : Triangle4) : Triangle4 :=
  with_ori_pri t4 (mkQuad None None None None).

(** A default-constructed [Triangle4]: [m_ori_pri] is [{ nullptr }], the
    registers hold whatever [regs] holds. *)
Definition fresh (regs : Triangle4) : Triangle4 :=
  with_ori_pri regs (mkQuad None None None None).


(** *** intersectTriangle4 *)

Definition zeros : m128 := _mm_set_ps1 zero.

(** [p[ ray.m_local_x ]] for a local array [__m128 p[3]]. *)
Definition pick (p : m128 * m128 * m128) (a : Axis) : m128 :=
  let '(px, py, pz) := p in
  match a with AxisX => px | AxisY => py | AxisZ => pz end.

(** The nine registers [p0_x .. p2_z] after steps 0 to 2. *)
Record Sheared := mkSheared {
  s_p0_x : m128; s_p0_y : m128; s_p0_z : m128;
  s_p1_x : m128; s_p1_y : m128; s_p1_z : m128;
  s_p2_x : m128; s_p2_y : m128; s_p2_z : m128
}.

Definition shear_vertices (ray : Ray) (tri4 : Triangle4) : Sheared :=
  (* step 0 : translate the vertices to ray coordinate system *)
  let p0 := (_mm_sub_ps (m_p0_x tri4) (m_ori_x ray),
             _mm_sub_ps (m_p0_y tri4) (m_ori_y ray),
             _mm_sub_ps (m_p0_z tri4) (m_ori_z ray)) in
  let p1 := (_mm_sub_ps (m_p1_x tri4) (m_ori_x ray),
             _mm_sub_ps (m_p1_y tri4) (m_ori_y ray),
             _mm_sub_ps (m_p1_z tri4) (m_ori_z ray)) in
  let p2 := (_mm_sub_ps (m_p2_x tri4) (m_ori_x ray),
             _mm_sub_ps (m_p2_y tri4) (m_ori_y ray),
             _mm_sub_ps (m_p2_z tri4) (m_ori_z ray)) in
  (* step 1 : pick the major axis *)
  let p0_x := pick p0 (m_local_x ray) in
  let p0_y := pick p0 (m_local_y ray) in
  let p0_z := pick p0 (m_local_z ray) in
  let p1_x := pick p1 (m_local_x ray) in
  let p1_y := pick p1 (m_local_y ray) in
  let p1_z := pick p1 (m_local_z ray) in
  (* lines 151-153 read [p1], not [p2] *)
  let p2_x := pick p1 (m_local_x ray) in
  let p2_y := pick p1 (m_local_y ray) in
  let p2_z := pick p1 (m_local_z ray) in
  (* step 2 : sheer the vertices *)
  let p0_x := _mm_add_ps p0_x (_mm_mul_ps p0_y (m_sse_scale_x ray)) in
  let p0_z := _mm_add_ps p0_z (_mm_mul_ps p0_y (m_sse_scale_z ray)) in
  let p1_x := _mm_add_ps p1_x (_mm_mul_ps p1_y (m_sse_scale_x ray)) in
  let p1_z := _mm_add_ps p1_z (_mm_mul_ps p1_y (m_sse_scale_z ray)) in
  let p2_x := _mm_add_ps p2_x (_mm_mul_ps p2_y (m_sse_scale_x ray)) in
  let p2_z := _mm_add_ps p2_z (_mm_mul_ps p2_y (m_sse_scale_z ray)) in
  mkSheared p0_x p0_y p0_z p1_x p1_y p1_z p2_x p2_y p2_z.

(** The edge functions (lines 164-166). *)
Definition edge0 (s : Sheared) : m128 :=
  _mm_sub_ps (_mm_mul_ps (s_p1_x s) (s_p2_z s)) (_mm_mul_ps (s_p1_z s) (s_p2_x s)).
Definition edge1 (s : Sheared) : m128 :=
  _mm_sub_ps (_mm_mul_ps (s_p2_x s) (s_p0_z s)) (_mm_mul_ps (s_p2_z s) (s_p0_x s)).
Definition edge2 (s : Sheared) : m128 :=
  _mm_sub_ps (_mm_mul_ps (s_p0_x s) (s_p1_z s)) (_mm_mul_ps (s_p0_z s) (s_p1_x s)).

(** Inside-triangle stage (lines 168-170). *)
Definition inside_stage (mask e0 e1 e2 : m128) : m128 :=
  let c0 := _mm_and_ps (_mm_and_ps (_mm_cmpge_ps e0 zeros) (_mm_cmpge_ps e1 zeros))
                       (_mm_cmpge_ps e2 zeros) in
  let c1 := _mm_and_ps (_mm_and_ps (_mm_cmple_ps e0 zeros) (_mm_cmple_ps e1 zeros))
                       (_mm_cmple_ps e2 zeros) in
  _mm_and_ps mask (_mm_and_ps c0 c1).

(** Determinant stage (lines 175-176). *)
Definition determinant (e0 e1 e2 : m128) : m128 :=
  _mm_add_ps e0 (_mm_add_ps e1 e2).
Definition det_stage (mask det : m128) : m128 :=
  _mm_and_ps mask (_mm_cmpneq_ps det zeros).

(** Lines 186-189; [p0_y], [p1_y], [p2_y] are the values after lines
    182-184. *)
Definition candidate_t (e0 e1 e2 rcp_det p0_y p1_y p2_y : m128) : m128 :=
  let t := _mm_add_ps e0 p0_y in
  let t := _mm_add_ps t (_mm_mul_ps e1 p1_y) in
  let t := _mm_add_ps t (_mm_mul_ps e2 p2_y) in
  _mm_mul_ps t rcp_det.

(** Ray-interval stage (lines 191-193). *)
Definition interval_stage (mask t : m128) (fMin fMax : bits) : m128 :=
  let ray_min_t := _mm_set_ps1 fMin in
  let ray_max_t := _mm_set_ps1 fMax in
  _mm_and_ps (_mm_and_ps mask (_mm_cmpgt_ps t ray_min_t)) (_mm_cmplt_ps t ray_max_t).

(** Caller-bound stage (line 201). *)
Definition bound_stage (mask t : m128) (ret_t : bits) : m128 :=
  _mm_and_ps (_mm_and_ps mask (_mm_cmpgt_ps t zeros)) (_mm_cmple_ps t (_mm_set_ps1 ret_t)).

(** One [if( b_mask[i] && res_t > f_t[i] )] statement of lines 218-233. *)
Definition reduce_step (b_mask : Quad Z) (f_t : Quad bits)
    (i : Lane) (idx : Z) (res : Z * bits) : Z * bits :=
  if negb (lane b_mask i =? 0) && fgt (snd res) (lane f_t i)
  then (idx, lane f_t i)
  else res.

(** Lines 216-233: the selected lane index [res_i] and its [res_t]. *)
Definition reduce_lanes (b_mask : Quad Z) (f_t : Quad bits) : Z * bits :=
  let res := (-1, neg_one) in
  let res := reduce_step b_mask f_t L0 0 res in
  let res := reduce_step b_mask f_t L1 1 res in
  let res := reduce_step b_mask f_t L2 2 res in
  let res := reduce_step b_mask f_t L3 3 res in
  res.

(** Subscripting a four-element array with an [int]. *)
Definition subscript {A} (arr : Quad A) (i : Z) : option A :=
  if i =? 0 then Some (lane arr L0)
  else if i =? 1 then Some (lane arr L1)
  else if i =? 2 then Some (lane arr L2)
  else if i =? 3 then Some (lane arr L3)
  else None.

(** Lines 235-264: read the winning triangle and fill [*ret]. *)
Definition resolve_hit (ray : Ray) (tri4 : Triangle4)
    (f_e1 f_e2 f_rcp_det : Quad bits) (res_i : Z) (res_t : bits) : outcome :=
  match subscript (m_ori_pri tri4) res_i,
        subscript f_e1 res_i, subscript f_e2 res_i, subscript f_rcp_det res_i with
  | Some (Some triangle), Some e1_i, Some e2_i, Some rcp_i =>
      let u := fmul e1_i rcp_i in
      let v := fmul e2_i rcp_i in
      let w := fsub (fsub one u) v in
      let mv0 := vertex_at triangle 0 in
      let mv1 := vertex_at triangle 1 in
      let mv2 := vertex_at triangle 2 in
      let uv := uv_add (uv_add (uv_scale w (m_texCoord mv0)) (uv_scale u (m_texCoord mv1)))
                       (uv_scale v (m_texCoord mv2)) in
      Returned true (Some (Intersection.mk
        (ray_at ray res_t)
        (Normalize (Cross (point_sub (m_position mv2) (m_position mv0))
                          (point_sub (m_position mv1) (m_position mv0))))
        (Normalize (vec_add (vec_add (vec_scale w (m_normal mv0)) (vec_scale u (m_normal mv1)))
                            (vec_scale v (m_normal mv2))))
        (Normalize (vec_add (vec_add (vec_scale w (m_tangent mv0)) (vec_scale u (m_tangent mv1)))
                            (vec_scale v (m_tangent mv2))))
        (vec_neg (m_Dir ray))
        (uv_x uv) (uv_y uv) res_t))
  | _, _, _, _ => Undefined
  end.

Definition intersectTriangle4 (ray : Ray) (tri4 : Triangle4)
    (ret : option Intersection.T) : outcome :=
  let mask := m_mask tri4 in
  let s := shear_vertices ray tri4 in
  let e0 := edge0 s in
  let e1 := edge1 s in
  let e2 := edge2 s in
  let mask := inside_stage mask e0 e1 e2 in
  if _mm_movemask_ps mask =? 0 then Returned false ret else
  let det := determinant e0 e1 e2 in
  let mask := det_stage mask det in
  if _mm_movemask_ps mask =? 0 then Returned false ret else
  let rcp_det := _mm_rcp_ps det in
  let p0_y := _mm_add_ps (s_p0_y s) (m_sse_scale_y ray) in
  let p1_y := _mm_add_ps (s_p1_y s) (m_sse_scale_y ray) in
  let p2_y := _mm_add_ps (s_p2_y s) (m_sse_scale_y ray) in
  let t := candidate_t e0 e1 e2 rcp_det p0_y p1_y p2_y in
  let mask := interval_stage mask t (m_fMin ray) (m_fMax ray) in
  if _mm_movemask_ps mask =? 0 then Returned false ret else
  match ret with
  | None => Returned true None
  | Some hit =>
      let mask := bound_stage mask t (Intersection.t hit) in
      if _mm_movemask_ps mask =? 0 then Returned false ret else
      let '(res_i, res_t) := reduce_lanes mask t in
      resolve_hit ray tri4 e1 e2 rcp_det res_i res_t
  end.

End SimdTriangle.

Arguments Triangle4 : clear implicits.
Arguments PackArrays : clear implicits.

(** ** Reference formula of the specification

    The parametric distance as the specification words it:
    t = (e0*p0_y + e1*p1_y + e2*p2_y) / determinant.  It is only compared
    with [candidate_t]; nothing else depends on it. *)
Definition spec_candidate_t (e0 e1 e2 det p0_y p1_y p2_y : bits) : bits :=
  fdiv (fadd (fadd (fmul e0 p0_y) (fmul e1 p1_y)) (fmul e2 p2_y)) det.

(** ** Occupancy of the four back-references *)

Definition occupied {T} (p : option T) : bool :=
  match p with Some _ => true | None => false end.

Definition count_occupied {T} (pri : Quad (option T)) : nat :=
  (Nat.b2n (occupied (q0 pri)) + Nat.b2n (occupied (q1 pri))
   + Nat.b2n (occupied (q2 pri)) + Nat.b2n (occupied (q3 pri)))%nat.

(** The occupied lanes are lanes 0 .. k-1 for some k. *)
Definition prefix_occupied {T} (pri : Quad (option T)) : Prop :=
  (occupied (q1 pri) = true -> occupied (q0 pri) = true)
  /\ (occupied (q2 pri) = true -> occupied (q1 pri) = true)
  /\ (occupied (q3 pri) = true -> occupied (q2 pri) = true).

(** The mutating member functions of [Triangle4], as a call trace. *)
Inductive call {T : Type} :=
  | CallPush (tri : option T)
  | CallPack (stack : StackJunk)
  | CallReset.
Arguments call : clear implicits.

Definition do_call {T} (vertex_at : T -> nat -> MeshVertex)
    (t4 : Triangle4 T) (c : call T) : Triangle4 T :=
  match c with
  | CallPush tri => snd (PushTriangle tri t4)
  | CallPack stack => PackData vertex_at stack t4
  | CallReset => Reset t4
  end.

Definition run_calls {T} (vertex_at : T -> nat -> MeshVertex)
    (cs : list (call T)) (t4 : Triangle4 T) : Triangle4 T :=
  fold_left (do_call vertex_at) cs t4.



(** ** A concrete instance, for evaluating the code on test scenarios *)

Module Scenario.

(** A triangle carrying its three vertices directly. *)
Record FlatTriangle := mkFlat { v0 : MeshVertex; v1 : MeshVertex; v2 : MeshVertex }.

Definition flat_vertex_at (tri : FlatTriangle) (k : nat) : MeshVertex :=
  match k with O => v0 tri | S O => v1 tri | _ => v2 tri end.

Definition exact_rcp (w : bits) : bits := fdiv one w.

Definition lift3 (f : bits -> bits) (a : Vector) : Vector :=
  mkVector (f (c_x a)) (f (c_y a)) (f (c_z a)).
Definition zip3 (f : bits -> bits -> bits) (a b : Vector) : Vector :=
  mkVector (f (c_x a) (c_x b)) (f (c_y a) (c_y b)) (f (c_z a) (c_z b)).

(** Component-wise vector operations; [Normalize] is left as the
    identity, no scenario below looks at a normal. *)
Definition plain_math : VectorMath := {|
  Normalize := fun a => a;
  Cross := fun a b =>
    mkVector (fsub (fmul (c_y a) (c_z b)) (fmul (c_z a) (c_y b)))
             (fsub (fmul (c_z a) (c_x b)) (fmul (c_x a) (c_z b)))
             (fsub (fmul (c_x a) (c_y b)) (fmul (c_y a) (c_x b)));
  point_sub := zip3 fsub;
  vec_scale := fun k => lift3 (fmul k);
  vec_add := zip3 fadd;
  vec_neg := lift3 (fsub zero);
  uv_scale := fun k a => mkVector2f (fmul k (uv_x a)) (fmul k (uv_y a));
  uv_add := fun a b => mkVector2f (fadd (uv_x a) (uv_x b)) (fadd (uv_y a) (uv_y b));
  ray_at := fun r t => zip3 fadd (m_Ori r) (lift3 (fmul t) (m_Dir r))
|}.

Definition vertex_at_position (px py pz : bits) : MeshVertex :=
  mkMeshVertex (mkVector px py pz) (mkVector zero zero neg_one)
               (mkVector one zero zero) (mkVector2f zero zero).

(** Scenario 1: vertices (-1,-1,0), (1,-1,0), (0,1,0). *)
Definition triangle1 : FlatTriangle :=
  mkFlat (vertex_at_position neg_one neg_one zero)
         (vertex_at_position one neg_one zero)
         (vertex_at_position zero one zero).

(** A triangle whose vertices 1 and 2 coincide. *)
Definition sliver : FlatTriangle :=
  mkFlat (vertex_at_position neg_one neg_one zero)
         (vertex_at_position one neg_one zero)
         (vertex_at_position one neg_one zero).

(** Origin (0,0,-5), direction (0,0,1); the interval, the axis
    permutation and the shear coefficients are left open. *)
Definition ray1 (fMin fMax : bits) (lx ly lz : Axis) (sx sy sz : m128) : Ray :=
  mkRay (mkVector zero zero neg_five) (mkVector zero zero one) fMin fMax
        (_mm_set_ps1 zero) (_mm_set_ps1 zero) (_mm_set_ps1 neg_five)
        lx ly lz sx sy sz.

(** The same ray with interval (0, 8), z as forward axis and no shear. *)
Definition ray1_prepared : Ray :=
  ray1 zero eight AxisX AxisZ AxisY
       (_mm_set_ps1 zero) (_mm_set_ps1 one) (_mm_set_ps1 zero).

Definition no_junk : StackJunk :=
  let z := mkQuad zero zero zero zero in
  mkStackJunk z z z z z z z z z.

Definition blank : Triangle4 FlatTriangle :=
  let z := _mm_set_ps1 zero in
  mkTriangle4 z z z z z z z z z z (mkQuad None None None None).

Definition hit_with_bound (bound : bits) : Intersection.T :=
  Intersection.mk (mkVector zero zero zero) (mkVector zero zero zero)
    (mkVector zero zero zero) (mkVector zero zero zero)
    (mkVector zero zero zero) zero zero bound.

(** Scenario 3: the scenario-1 triangle alone in lane 0, then packed. *)
Definition batch1 (stack : StackJunk) (regs : Triangle4 FlatTriangle) :
    Triangle4 FlatTriangle :=
  PackData flat_vertex_at stack (snd (PushTriangle (Some triangle1) (fresh regs))).

End Scenario.

(** ** Further definitions: float negation, ordering, [int] conversion *)

(** Unary minus on a [float]: the sign bit is flipped, also on zeros and
    NaNs. *)
Definition fneg (w : bits) : bits := Z.lxor w 2147483648.

Definition FLT_MAX : bits := 2139095039. (* 0x7F7FFFFF *)

(** Conversion of a [size_t] value to [int] (two's complement
    truncation). *)
Definition to_int (n : Z) : Z :=
  let m := n mod 4294967296 in
  if m <? 2147483648 then m else m - 4294967296.

(** Position of a non-NaN value on the extended real line, as a triple
    compared lexicographically: class (-2 for -inf, -1 negative, 0 zero, 1
    positive, 2 for +inf), then signed exponent, then signed mantissa.
    Only used to reason about [SFcompare]. *)
Definition rank (f : spec_float) : Z * Z * Z :=
  match f with
  | S754_zero _ => (0, 0, 0)
  | S754_infinity true => (-2, 0, 0)
  | S754_infinity false => (2, 0, 0)
  | S754_nan => (0, 0, 0)
  | S754_finite true m e => (-1, - e, - Zpos m)
  | S754_finite false m e => (1, e, Zpos m)
  end.

Definition lex_lt (a b : Z * Z * Z) : Prop :=
  let '(c1, e1, m1) := a in
  let '(c2, e2, m2) := b in
  c1 < c2 \/ (c1 = c2 /\ (e1 < e2 \/ (e1 = e2 /\ m1 < m2))).

Definition lex_le (a b : Z * Z * Z) : Prop :=
  let '(c1, e1, m1) := a in
  let '(c2, e2, m2) := b in
  c1 < c2 \/ (c1 = c2 /\ (e1 < e2 \/ (e1 = e2 /\ m1 <= m2))).

Definition not_nan (f : spec_float) : Prop := f <> S754_nan.

(** A linear search for the smallest value, written once so that the two
    searches of the sources (the lane reduction of [intersectTriangle4] and
    the brute-force loop of [Scene::_bfIntersect]) can share one proof: a
    candidate is taken when it is enabled and strictly below the current
    bound. *)
Fixpoint scan {A} (cands : list (bool * bits * A)) (best : option A) (t : bits)
    : option A * bits :=
  match cands with
  | [] => (best, t)
  | (ok, tc, a) :: rest =>
      if ok && flt tc t then scan rest (Some a) tc else scan rest best t
  end.

Definition enabled {A} (c : bool * bits * A) : bool := fst (fst c).
Definition cand_t {A} (c : bool * bits * A) : bits := snd (fst c).

Definition lane_index (i : Lane) : Z :=
  match i with L0 => 0 | L1 => 1 | L2 => 2 | L3 => 3 end.

(** The four [if] statements of lines 218-233 as candidates of [scan]. *)
Definition lane_cands (b_mask : Quad Z) (f_t : Quad bits) : list (bool * bits * Lane) :=
  map (fun i => (negb (lane b_mask i =? 0), lane f_t i, i)) all_lanes.

(** ** Scene (geometry/scene.cpp) *)

Section SceneModel.

(** [Primitive], [Accelerator] and [TriMesh] are abstract classes of other
    files.  [Primitive_GetIntersect p r in] is the virtual call
    [p->GetIntersect( r , &in )]: the returned [bool] and the content of
    [in] afterwards.  [Intersection_new] is a default-constructed
    [Intersection]. *)
Context {Primitive Accelerator TriMesh : Type}.
Context (Primitive_GetIntersect : Primitive -> Ray -> Intersection.T -> bool * Intersection.T).
Context (Intersection_new : Intersection.T).
Context (Accelerator_GetIntersect : Accelerator -> Ray -> option Intersection.T -> outcome).

Record Scene := mkScene {
  m_pAccelerator : option Accelerator;
  m_triBuf : list Primitive;
  m_meshBuf : list TriMesh
}.

Definition _init (sc : Scene) : Scene :=
  mkScene None (m_triBuf sc) (m_meshBuf sc).

(** The loop body of [_bfIntersect] from index [k] on; [buf] holds
    [m_triBuf[k] .. m_triBuf[n-1]].  The bounding box fetched at the top of
    the body is not used.  Assigning through a null [intersect] is
    undefined. *)
Fixpoint bf_loop (r : Ray) (buf : list Primitive) (bInter : bool) (t : bits)
    (intersect : option Intersection.T) : outcome :=
  match buf with
  | [] => Returned bInter intersect
  | prim :: rest =>
      let '(hit, in_) := Primitive_GetIntersect prim r Intersection_new in
      if hit && flt (Intersection.t in_) t then
        match intersect with
        | None => Undefined
        | Some _ => bf_loop r rest true (Intersection.t in_) (Some in_)
        end
      else bf_loop r rest bInter t intersect
  end.

(** [int n = (int)m_triBuf.size(); for( int k = 0 ; k < n ; k++ )]: the
    primitives the loop visits. *)
Definition visited (buf : list Primitive) : list Primitive :=
  firstn (Z.to_nat (to_int (Z.of_nat (length buf)))) buf.

Definition _bfIntersect (sc : Scene) (r : Ray) (intersect : option Intersection.T) : outcome :=
  bf_loop r (visited (m_triBuf sc)) false FLT_MAX intersect.

Definition GetIntersect (sc : Scene) (r : Ray) (intersect : option Intersection.T) : outcome :=
  match m_pAccelerator sc with
  | None => _bfIntersect sc r intersect
  | Some accel => Accelerator_GetIntersect accel r intersect
  end.

(** What one primitive answers for the ray. *)
Definition answer (r : Ray) (prim : Primitive) : bool * Intersection.T :=
  Primitive_GetIntersect prim r Intersection_new.

(** The answer of a primitive as a candidate of [scan]. *)
Definition cand_of (r : Ray) (p : Primitive) : bool * bits * Intersection.T :=
  let a := answer r p in
  (fst a, Intersection.t (snd a), snd a).

End SceneModel.

Arguments Scene : clear implicits.

(** ** Reflection (bsdf/reflection.cpp) *)

Section ReflectionModel.

(** [Spectrum], [Fresnel], [CosTheta] and [AbsCosTheta] belong to other
    files. *)
Context {Spectrum Fresnel : Type}.
Context (Spectrum_new : Spectrum).
Context (Spectrum_div : Spectrum -> bits -> Spectrum).
Context (Fresnel_Evaluate : Fresnel -> bits -> bits -> Spectrum).
Context (CosTheta AbsCosTheta : Vector -> bits).

Definition Reflection_f (m_fresnel : option Fresnel) (wo wi : Vector) : Spectrum :=
  Spectrum_new.

(** The result is the returned [Spectrum] with the final values of [wi] and
    [*pdf]; [None] when the null [m_fresnel] is dereferenced. *)
Definition Reflection_sample_f (m_fresnel : option Fresnel) (wo wi : Vector)
    (pdf : option bits) : option (Spectrum * Vector * option bits) :=
  let wi := mkVector (fneg (c_x wo)) (c_y wo) (fneg (c_z wo)) in
  match m_fresnel with
  | None => None
  | Some fre =>
      Some (Spectrum_div (Fresnel_Evaluate fre (CosTheta wi) (CosTheta wo)) (AbsCosTheta wi),
            wi, pdf)
  end.

End ReflectionModel.

(** ** Concrete primitives, for evaluating the scene code *)

Module SceneScenario.

(** A primitive that reports a fixed hit flag and distance. *)
Definition Probe : Type := bool * bits.

Definition probe_intersect (p : Probe) (r : Ray) (i : Intersection.T)
    : bool * Intersection.T :=
  (fst p,
   Intersection.mk (Intersection.intersect i) (Intersection.gnormal i)
     (Intersection.normal i) (Intersection.tangent i) (Intersection.view i)
     (Intersection.u i) (Intersection.v i) (snd p)).

Definition no_accel (a : Empty_set) (r : Ray) (i : option Intersection.T) : outcome :=
  Undefined.

Definition fresh_in : Intersection.T := Scenario.hit_with_bound zero.

Definition scene_of (prims : list Probe) : Scene Probe Empty_set Empty_set :=
  mkScene None prims [].

(** Four probes: hit at 5, miss, hit at 3, hit at 3. *)
Definition probes : list Probe :=
  [(true, five); (false, one); (true, three); (true, three)].

End SceneScenario.

(** Further test data for the container. *)
Module Overflow.

Definition huge : bits := 2130706432. (* 0x7F000000 = 2^127 *)

(** A triangle far away: every vertex at (2^127, 2^127, 0). *)
Definition far_triangle : Scenario.FlatTriangle :=
  Scenario.mkFlat (Scenario.vertex_at_position huge huge zero)
                  (Scenario.vertex_at_position huge huge zero)
                  (Scenario.vertex_at_position huge huge zero).

Definition far_batch : Triangle4 Scenario.FlatTriangle :=
  PackData Scenario.flat_vertex_at Scenario.no_junk
    (snd (PushTriangle (Some far_triangle) (fresh Scenario.blank))).

End Overflow.

(** ** Bit-level and floating-point facts *)

Lemma msb_land (a b : bits) : msb (Z.land a b) = msb a && msb b.
Proof. unfold msb. apply Z.land_spec. Qed.

Lemma msb_bool_mask (b : bool) : msb (bool_mask b) = b.
Proof. destruct b; reflexivity. Qed.

Lemma movemask_dead (v : m128) :
  (forall i, msb (lane v i) = false) -> _mm_movemask_ps v = 0.
Proof.
  intros H. unfold _mm_movemask_ps.
  rewrite (H L0 : msb (q0 v) = false), (H L1 : msb (q1 v) = false),
          (H L2 : msb (q2 v) = false), (H L3 : msb (q3 v) = false).
  reflexivity.
Qed.

Lemma movemask_alive (v : m128) (i : Lane) :
  msb (lane v i) = true -> _mm_movemask_ps v <> 0.
Proof.
  unfold _mm_movemask_ps.
  destruct i; cbn [lane]; intros ->;
    destruct (msb (q0 v)), (msb (q1 v)), (msb (q2 v)), (msb (q3 v));
    discriminate.
Qed.

Lemma decode_zero : decode zero = S754_zero false.
Proof. reflexivity. Qed.

Lemma decode_encode_zero (s : bool) : decode (encode (S754_zero s)) = S754_zero s.
Proof. destruct s; reflexivity. Qed.

Lemma fge_fle_zero (a : bits) :
  fge a zero = true -> fle a zero = true -> is_zero a.
Proof.
  unfold fge, fle, is_zero, SFleb. rewrite decode_zero.
  destruct (decode a) as [s | s | | s m e]; cbn [SFcompare].
  - intros _ _. exists s. reflexivity.
  - destruct s; discriminate.
  - discriminate.
  - destruct s; discriminate.
Qed.

Lemma fadd_zero_zero (a b : bits) : is_zero a -> is_zero b -> is_zero (fadd a b).
Proof.
  intros [sa Ha] [sb Hb]. unfold is_zero, fadd, lift2. rewrite Ha, Hb.
  destruct sa, sb; cbn [SFadd]; eexists; apply decode_encode_zero.
Qed.

Lemma feq_zero (a : bits) : is_zero a -> feq a zero = true.
Proof. intros [s H]. unfold feq. rewrite H, decode_zero. reflexivity. Qed.

Lemma decode_neg_one : decode neg_one = S754_finite true 8388608 (-23).
Proof. vm_compute. reflexivity. Qed.

Lemma positive_not_below_neg_one (a : bits) :
  fgt a zero = true -> fgt neg_one a = false.
Proof.
  unfold fgt, SFltb. rewrite decode_zero, decode_neg_one.
  destruct (decode a) as [s | s | | s m e]; cbn [SFcompare]; try discriminate.
  - destruct s; [discriminate | reflexivity].
  - destruct s; [discriminate | reflexivity].
Qed.

Lemma lane_map2 {A B C} (f : A -> B -> C) (a : Quad A) (b : Quad B) (i : Lane) :
  lane (quad_map2 f a b) i = f (lane a i) (lane b i).
Proof. destruct i; reflexivity. Qed.

Lemma lane_set_ps1 (a : bits) (i : Lane) : lane (_mm_set_ps1 a) i = a.
Proof. destruct i; reflexivity. Qed.

Lemma land_nonzero (a b : bits) : Z.land a b <> 0 -> a <> 0 /\ b <> 0.
Proof.
  intros H. split; intros ->; apply H; [apply Z.land_0_l | apply Z.land_0_r].
Qed.

Lemma bool_mask_nonzero (b : bool) : bool_mask b <> 0 -> b = true.
Proof. destruct b; [reflexivity | intros H; exfalso; apply H; reflexivity]. Qed.

Lemma msb_nonzero (w : bits) : msb w = true -> w <> 0.
Proof. intros H ->. discriminate H. Qed.

(** ** Binary32: a few evaluations of the model *)

Example binary32_arithmetic :
  fadd one one = two /\ fmul two two = four /\ fsub three eight = neg_five
  /\ fdiv eight two = four /\ fadd two three = five
  /\ of_uint 1 = one /\ of_uint 5 = five
  /\ flt neg_five neg_one = true /\ fle zero (fsub zero zero) = true
  /\ decode one = S754_finite false 8388608 (-23).
Proof. vm_compute. repeat split. Qed.

(** ** Binary32: subtraction and sign symmetry *)

Lemma expo_of_range (w : bits) : 0 <= expo_of w <= 255.
Proof.
  unfold expo_of. change 255 with (Z.ones 8). rewrite Z.land_ones by lia.
  pose proof (Z.mod_pos_bound (Z.shiftr w 23) (2 ^ 8) ltac:(lia)) as H.
  change (2 ^ 8) with 256 in *. change (Z.ones 8) with 255. lia.
Qed.

Lemma decode_in_range (w : bits) : in_range (decode w).
Proof.
  unfold decode. pose proof (expo_of_range w) as R.
  destruct (Z.eqb_spec (expo_of w) 0) as [E0 | N0].
  - destruct (frac_of w); cbn; lia.
  - destruct (Z.eqb_spec (expo_of w) 255) as [E1 | N1].
    + destruct (frac_of w =? 0); exact I.
    + destruct (Z.lor (frac_of w) 8388608); cbn; lia.
Qed.

Lemma shr_fexp_exponent (m e : Z) (l : location) :
  -149 <= snd (shr_fexp prec emax m e l).
Proof.
  unfold shr_fexp, shr.
  set (n := fexp prec emax (Zdigits2 m + e) - e).
  assert (F : -149 <= fexp prec emax (Zdigits2 m + e)).
  { unfold fexp, emin, prec, emax. lia. }
  destruct n eqn:En; cbn [snd]; unfold n in *; lia.
Qed.

(** [binary_round_aux] yields a value in range whose only dependence on the
    sign argument is the sign of the result. *)
Lemma binary_round_aux_sign (s : bool) (m e : Z) (l : location) :
  in_range (binary_round_aux prec emax s m e l)
  /\ binary_round_aux prec emax (negb s) m e l
     = SFopp (binary_round_aux prec emax s m e l).
Proof.
  unfold binary_round_aux.
  destruct (shr_fexp prec emax m e l) as [mrs' e'].
  pose proof (shr_fexp_exponent
                (round_nearest_even (shr_m mrs') (loc_of_shr_record mrs')) e' loc_Exact) as L.
  destruct (shr_fexp prec emax _ e' loc_Exact) as [mrs'' e'']. cbn [snd] in L.
  destruct (shr_m mrs'') as [| p | p]; cbn [in_range SFopp]; auto.
  destruct (e'' <=? emax - prec) eqn:Hle; cbn [in_range SFopp]; auto.
  apply Z.leb_le in Hle. unfold emax, prec in Hle. split; [lia | reflexivity].
Qed.

Lemma binary_round_sign (s : bool) (m : positive) (e : Z) :
  in_range (binary_round prec emax s m e)
  /\ binary_round prec emax (negb s) m e = SFopp (binary_round prec emax s m e).
Proof.
  unfold binary_round. destruct (shl_align m e _) as [mz ez].
  apply binary_round_aux_sign.
Qed.

Lemma binary_normalize_opp (m e : Z) :
  in_range (binary_normalize prec emax m e false)
  /\ (binary_normalize prec emax (- m) e false
        = SFopp (binary_normalize prec emax m e false)
      \/ (m = 0)).
Proof.
  destruct m as [| p | p]; cbn [binary_normalize Z.opp in_range].
  - auto.
  - destruct (binary_round_sign false p e) as [R E]. split; [exact R |]. left. exact E.
  - destruct (binary_round_sign true p e) as [R E]. split; [exact R |]. left.
    cbn [negb] in E. rewrite E. destruct (binary_round prec emax true p e); reflexivity || (cbn; rewrite ?negb_involutive; reflexivity).
Qed.

Lemma testbit_small (a n : Z) : 0 <= n -> 0 <= a < 2 ^ n -> Z.testbit a n = false.
Proof.
  intros Hn Ha. apply Z.testbit_false; [exact Hn |].
  rewrite Z.div_small by exact Ha. reflexivity.
Qed.

(** The three fields of a pattern assembled from a sign, an exponent field
    and a fraction field. *)
Lemma fields_of_pattern (s : bool) (E F : Z) :
  0 <= E < 256 -> 0 <= F < 8388608 ->
  let w := Z.lor (sign_bit s) (Z.lor (Z.shiftl E 23) F) in
  sign_of w = s /\ expo_of w = E /\ frac_of w = F.
Proof.
  intros HE HF w. subst w. repeat split.
  - unfold sign_of. rewrite !Z.lor_spec, Z.shiftl_spec by lia.
    rewrite (testbit_small E (31 - 23)) by (change (2 ^ (31 - 23)) with 256; lia).
    rewrite (testbit_small F 31) by (change (2 ^ 31) with 2147483648; lia).
    destruct s; reflexivity.
  - unfold expo_of. rewrite !Z.shiftr_lor.
    rewrite Z.shiftr_shiftl_l by lia. change (23 - 23) with 0. rewrite Z.shiftl_0_r.
    rewrite (Z.shiftr_div_pow2 F) by lia.
    rewrite (Z.div_small F) by (change (2 ^ 23) with 8388608; lia).
    rewrite Z.lor_0_r, Z.land_lor_distr_l.
    replace (Z.land (Z.shiftr (sign_bit s) 23) 255) with 0 by (destruct s; reflexivity).
    rewrite Z.lor_0_l. change 255 with (Z.ones 8). rewrite Z.land_ones by lia.
    apply Z.mod_small. change (2 ^ 8) with 256. lia.
  - unfold frac_of. rewrite !Z.land_lor_distr_l.
    replace (Z.land (sign_bit s) 8388607) with 0 by (destruct s; reflexivity).
    change 8388607 with (Z.ones 23). rewrite !Z.land_ones by lia.
    rewrite Z.shiftl_mul_pow2 by lia. rewrite Z.mod_mul by lia.
    rewrite !Z.lor_0_l. apply Z.mod_small. change (2 ^ 23) with 8388608. lia.
Qed.

(** Decoding an encoded value: the sign passes through unchanged and
    nothing else depends on it. *)
Lemma decode_encode_sign (f : spec_float) :
  in_range f -> exists g, forall s, decode (encode (set_sign s f)) = set_sign s g.
Proof.
  destruct f as [s0 | s0 | | s0 m e]; intros R.
  - exists (S754_zero false). intros s. destruct s; reflexivity.
  - exists (S754_infinity false). intros s. destruct s; reflexivity.
  - exists S754_nan. intros s. reflexivity.
  - cbn [in_range] in R. cbn [set_sign encode].
    destruct (Z.ltb_spec (Zpos m) 8388608) as [Small | Big].
    + exists (S754_finite false m (-149)). intros s.
      destruct (fields_of_pattern s 0 (Zpos m)) as (Hs & He & Hf); [lia | lia |].
      rewrite Z.shiftl_0_l, Z.lor_0_l in Hs, He, Hf.
      unfold decode. rewrite Hs, He, Hf. reflexivity.
    + assert (HF : 0 <= Z.land (Zpos m) 8388607 < 8388608).
      { change 8388607 with (Z.ones 23). rewrite Z.land_ones by lia.
        change 8388608 with (2 ^ 23). apply Z.mod_pos_bound. lia. }
      exists (match Z.lor (Z.land (Zpos m) 8388607) 8388608 with
              | Zpos p => S754_finite false p (e + 150 - 150)
              | _ => S754_nan
              end).
      intros s.
      destruct (fields_of_pattern s (e + 150) (Z.land (Zpos m) 8388607))
        as (Hs & He & Hf); [lia | exact HF |].
      unfold decode. rewrite Hs, He, Hf.
      destruct (Z.eqb_spec (e + 150) 0) as [E0 | _]; [lia |].
      destruct (Z.eqb_spec (e + 150) 255) as [E1 | _]; [lia |].
      destruct (Z.lor (Z.land (Zpos m) 8388607) 8388608); reflexivity.
Qed.

Lemma SFadd_opposite (s : bool) (g : spec_float) :
  zero_or_nan (SFadd prec emax (set_sign s g) (set_sign (negb s) g)).
Proof.
  destruct g as [s0 | s0 | | s0 m e]; cbn [set_sign SFadd].
  - left. destruct s; cbn; eauto.
  - right. destruct s; reflexivity.
  - right. reflexivity.
  - left. exists false.
    rewrite Z.min_id. unfold shl_align. rewrite Z.sub_diag. cbn [fst].
    replace (cond_Zopp s (Z.pos m) + cond_Zopp (negb s) (Z.pos m)) with 0
      by (destruct s; cbn [cond_Zopp negb]; lia).
    reflexivity.
Qed.

Lemma SFmul_comm (x y : spec_float) : SFmul prec emax x y = SFmul prec emax y x.
Proof.
  destruct x as [sx | sx | | sx mx ex], y as [sy | sy | | sy my ey];
    cbn [SFmul]; rewrite ?(xorb_comm sx sy), ?(Pos.mul_comm mx my), ?(Z.add_comm ex ey);
    reflexivity.
Qed.

Lemma fmul_comm (a b : bits) : fmul a b = fmul b a.
Proof. unfold fmul, lift2. rewrite SFmul_comm. reflexivity. Qed.

Lemma SFsub_diag (f : spec_float) : zero_or_nan (SFsub prec emax f f).
Proof.
  destruct f as [s | s | | s m e]; cbn [SFsub].
  - left. exists false. destruct s; reflexivity.
  - right. destruct s; reflexivity.
  - right. reflexivity.
  - left. exists false. rewrite Z.sub_diag. reflexivity.
Qed.

Lemma set_sign_opp (f : spec_float) :
  exists s, f = set_sign s f /\ SFopp f = set_sign (negb s) f.
Proof.
  destruct f as [s | s | | s m e]; try (exists s; split; reflexivity).
  exists false. split; reflexivity.
Qed.

(** [a - b] and [b - a] are two zeros, or one value under opposite signs. *)
Lemma SFsub_swap (a b : spec_float) :
  in_range a -> in_range b ->
  (exists s f, in_range f
               /\ SFsub prec emax a b = set_sign s f
               /\ SFsub prec emax b a = set_sign (negb s) f)
  \/ (exists s s', SFsub prec emax a b = S754_zero s /\ SFsub prec emax b a = S754_zero s').
Proof.
  intros Ra Rb.
  destruct a as [sa | sa | | sa ma ea], b as [sb | sb | | sb mb eb];
    try (left; exists false, S754_nan; repeat split; reflexivity);
    try (right; cbn [SFsub]; destruct sa, sb; eauto; fail).
  - (* zero - infinity *)
    left. exists (negb sb), (S754_infinity false). rewrite negb_involutive.
    repeat split.
  - (* zero - finite *)
    left. exists (negb sb), (S754_finite sb mb eb). rewrite negb_involutive.
    split; [exact Rb | split; reflexivity].
  - (* infinity - zero *)
    left. exists sa, (S754_infinity false). repeat split.
  - (* infinity - infinity *)
    left. destruct sa, sb;
      [ exists false, S754_nan | exists true, (S754_infinity false)
      | exists false, (S754_infinity false) | exists false, S754_nan ];
      repeat split.
  - (* infinity - finite *)
    left. exists sa, (S754_infinity false). repeat split.
  - (* finite - zero *)
    left. exists sa, (S754_finite sa ma ea).
    split; [exact Ra | split; reflexivity].
  - (* finite - infinity *)
    left. exists (negb sb), (S754_infinity false). rewrite negb_involutive.
    repeat split.
  - (* finite - finite *)
    cbn [SFsub]. rewrite (Z.min_comm eb ea).
    set (ez := Z.min ea eb).
    set (P := cond_Zopp sa (Z.pos (fst (shl_align ma ea ez)))).
    set (Q := cond_Zopp sb (Z.pos (fst (shl_align mb eb ez)))).
    replace (Q - P) with (- (P - Q)) by lia.
    destruct (binary_normalize_opp (P - Q) ez) as [R [E | Z0]].
    + left. destruct (set_sign_opp (binary_normalize prec emax (P - Q) ez false))
        as (s & E1 & E2).
      exists s, (binary_normalize prec emax (P - Q) ez false).
      split; [exact R |]. split; [exact E1 |]. rewrite E. exact E2.
    + right. rewrite Z0. exists false, false. split; reflexivity.
Qed.

Lemma zero_or_nan_round_trip (f : spec_float) :
  zero_or_nan f -> zero_or_nan (decode (encode f)).
Proof.
  intros [[s ->] | ->].
  - left. exists s. apply decode_encode_zero.
  - right. reflexivity.
Qed.

Lemma SFadd_zero_or_nan (x y : spec_float) :
  zero_or_nan x -> zero_or_nan y -> zero_or_nan (SFadd prec emax x y).
Proof.
  intros [[sx ->] | ->] [[sy ->] | ->]; cbn [SFadd]; try (right; reflexivity).
  left. destruct sx, sy; eauto.
Qed.

(** [(a - b) + (b - a)] is a zero or a NaN in binary32. *)
Lemma fadd_fsub_swap (a b : bits) :
  zero_or_nan (decode (fadd (fsub a b) (fsub b a))).
Proof.
  unfold fadd, fsub, lift2. apply zero_or_nan_round_trip.
  destruct (SFsub_swap (decode a) (decode b) (decode_in_range a) (decode_in_range b))
    as [(s & f & R & -> & ->) | (s & s' & -> & ->)].
  - destruct (decode_encode_sign f R) as [g Hg]. rewrite !Hg.
    apply SFadd_opposite.
  - rewrite !decode_encode_zero. left. destruct s, s'; cbn [SFadd]; eauto.
Qed.

Lemma fsub_diag (a : bits) : zero_or_nan (decode (fsub a a)).
Proof. unfold fsub, lift2. apply zero_or_nan_round_trip, SFsub_diag. Qed.

Lemma fadd_zero_or_nan (a b : bits) :
  zero_or_nan (decode a) -> zero_or_nan (decode b) -> zero_or_nan (decode (fadd a b)).
Proof.
  intros Ha Hb. unfold fadd, lift2.
  apply zero_or_nan_round_trip, SFadd_zero_or_nan; assumption.
Qed.


(** ** The rejection stages, lane by lane *)

Section Stages.

Lemma inside_stage_lane (mask e0 e1 e2 : m128) (i : Lane) :
  lane (inside_stage mask e0 e1 e2) i =
  Z.land (lane mask i)
    (Z.land
       (Z.land (Z.land (bool_mask (fge (lane e0 i) zero)) (bool_mask (fge (lane e1 i) zero)))
               (bool_mask (fge (lane e2 i) zero)))
       (Z.land (Z.land (bool_mask (fle (lane e0 i) zero)) (bool_mask (fle (lane e1 i) zero)))
               (bool_mask (fle (lane e2 i) zero)))).
Proof. destruct i; reflexivity. Qed.

Lemma inside_stage_alive (mask e0 e1 e2 : m128) (i : Lane) :
  msb (lane (inside_stage mask e0 e1 e2) i) = true ->
  msb (lane mask i) = true
  /\ is_zero (lane e0 i) /\ is_zero (lane e1 i) /\ is_zero (lane e2 i).
Proof.
  rewrite inside_stage_lane, !msb_land, !msb_bool_mask.
  intros H.
  repeat match goal with
         | H : _ && _ = true |- _ => apply andb_prop in H; destruct H
         end.
  repeat split; try assumption; apply fge_fle_zero; assumption.
Qed.

Lemma det_stage_lane (mask det : m128) (i : Lane) :
  lane (det_stage mask det) i =
  Z.land (lane mask i) (bool_mask (negb (feq (lane det i) zero))).
Proof. destruct i; reflexivity. Qed.

Lemma determinant_lane (e0 e1 e2 : m128) (i : Lane) :
  lane (determinant e0 e1 e2) i = fadd (lane e0 i) (fadd (lane e1 i) (lane e2 i)).
Proof. destruct i; reflexivity. Qed.

Lemma det_stage_rejects_zero (mask det : m128) (i : Lane) :
  is_zero (lane det i) -> lane (det_stage mask det) i = 0.
Proof.
  intros H. rewrite det_stage_lane, (feq_zero _ H). apply Z.land_0_r.
Qed.

Lemma no_lane_survives_det (mask e0 e1 e2 : m128) (i : Lane) :
  msb (lane (det_stage (inside_stage mask e0 e1 e2) (determinant e0 e1 e2)) i) = false.
Proof.
  destruct (msb (lane (inside_stage mask e0 e1 e2) i)) eqn:Hin.
  - apply inside_stage_alive in Hin. destruct Hin as (_ & H0 & H1 & H2).
    rewrite det_stage_rejects_zero; [reflexivity |].
    rewrite determinant_lane. auto using fadd_zero_zero.
  - rewrite det_stage_lane, msb_land, Hin. reflexivity.
Qed.

Lemma interval_stage_lane (mask t : m128) (fMin fMax : bits) (i : Lane) :
  lane (interval_stage mask t fMin fMax) i =
  Z.land (Z.land (lane mask i) (bool_mask (fgt (lane t i) fMin)))
         (bool_mask (flt (lane t i) fMax)).
Proof. destruct i; reflexivity. Qed.

Lemma bound_stage_lane (mask t : m128) (ret_t : bits) (i : Lane) :
  lane (bound_stage mask t ret_t) i =
  Z.land (Z.land (lane mask i) (bool_mask (fgt (lane t i) zero)))
         (bool_mask (fle (lane t i) ret_t)).
Proof. destruct i; reflexivity. Qed.

End Stages.

(** ** The determinant under lines 151-153 *)

Section Determinant.
Context {Triangle : Type}.

(** Lines 151-153: the registers of vertex 2 are those of vertex 1. *)
Lemma sheared_p2_is_p1 (ray : Ray) (tri4 : Triangle4 Triangle) :
  let s := shear_vertices ray tri4 in
  s_p2_x s = s_p1_x s /\ s_p2_y s = s_p1_y s /\ s_p2_z s = s_p1_z s.
Proof. repeat split. Qed.

(** Consequently the determinant never is a non-zero number: in every
    lane, for every ray and every container, e0 is p1 x p1, e2 is the
    opposite of e1, and e0 + (e1 + e2) is a zero (or a NaN when a product
    overflowed). *)
Lemma determinant_zero_or_nan (ray : Ray) (tri4 : Triangle4 Triangle) (i : Lane) :
  let s := shear_vertices ray tri4 in
  zero_or_nan (decode (lane (determinant (edge0 s) (edge1 s) (edge2 s)) i)).
Proof.
  intros s. destruct (sheared_p2_is_p1 ray tri4) as (Ex & _ & Ez). fold s in Ex, Ez.
  rewrite determinant_lane. unfold edge0, edge1, edge2.
  rewrite Ex, Ez. unfold _mm_sub_ps, _mm_mul_ps. rewrite !lane_map2.
  apply fadd_zero_or_nan.
  - rewrite (fmul_comm (lane (s_p1_z s) i) (lane (s_p1_x s) i)). apply fsub_diag.
  - rewrite (fmul_comm (lane (s_p0_x s) i) (lane (s_p1_z s) i)).
    rewrite (fmul_comm (lane (s_p0_z s) i) (lane (s_p1_x s) i)).
    apply fadd_fsub_swap.
Qed.
End Determinant.

Section Always.
Context {Triangle : Type} (vertex_at : Triangle -> nat -> MeshVertex).
Context (rcp : bits -> bits) {VM : VectorMath}.

Lemma stops_at_determinant (ray : Ray) (tri4 : Triangle4 Triangle)
    (ret : option Intersection.T) :
  intersectTriangle4 vertex_at rcp ray tri4 ret = Returned false ret.
Proof.
  unfold intersectTriangle4.
  destruct (_mm_movemask_ps (inside_stage _ _ _ _) =? 0); [reflexivity |].
  rewrite movemask_dead by (intros i; apply no_lane_survives_det).
  reflexivity.
Qed.
End Always.

(** ** The container: PushTriangle, PackData, Reset *)

Lemma quad_ext {A} (a b : Quad A) : (forall i, lane a i = lane b i) -> a = b.
Proof.
  intros H. destruct a, b.
  pose proof (H L0) as H0. pose proof (H L1) as H1.
  pose proof (H L2) as H2. pose proof (H L3) as H3.
  cbn in H0, H1, H2, H3. congruence.
Qed.

Section Container.
Context {Triangle : Type} (vertex_at : Triangle -> nat -> MeshVertex).

Lemma of_uint_all_ones : of_uint 4294967295 = 1333788672.
Proof. vm_compute. reflexivity. Qed.

Lemma of_uint_0 : of_uint 0 = 0.
Proof. reflexivity. Qed.

(** The [mask] array after the loop holds 0xffffffff in the lanes the
    loop visited and 0 elsewhere. *)
Lemma pack_loop_mask (pri : Quad (option Triangle)) (a : PackArrays) (i : Lane) :
  a_mask a = mkQuad 0 0 0 0 ->
  lane (a_mask (pack_loop vertex_at all_lanes pri a)) i = 0
  \/ lane (a_mask (pack_loop vertex_at all_lanes pri a)) i = 4294967295.
Proof.
  intros Ha. destruct pri as [[a0|] [a1|] [a2|] [a3|]], i;
    cbn [pack_loop all_lanes lane q0 q1 q2 q3 pack_lane a_mask set_lane];
    rewrite ?Ha; cbn [q0 q1 q2 q3]; auto.
Qed.

Lemma PackData_mask_lane_cases (stack : StackJunk) (t4 : Triangle4 Triangle) (i : Lane) :
  lane (m_mask (PackData vertex_at stack t4)) i = 0
  \/ lane (m_mask (PackData vertex_at stack t4)) i = 1333788672.
Proof.
  unfold PackData. cbn [m_mask].
  destruct (pack_loop_mask (m_ori_pri t4) (pack_init stack) L0 eq_refl) as [E0|E0],
           (pack_loop_mask (m_ori_pri t4) (pack_init stack) L1 eq_refl) as [E1|E1],
           (pack_loop_mask (m_ori_pri t4) (pack_init stack) L2 eq_refl) as [E2|E2],
           (pack_loop_mask (m_ori_pri t4) (pack_init stack) L3 eq_refl) as [E3|E3];
    rewrite E0, E1, E2, E3; destruct i; cbn [lane _mm_set_ps q0 q1 q2 q3];
    rewrite ?of_uint_all_ones, ?of_uint_0; auto.
Qed.

Lemma PackData_mask_unsigned (stack : StackJunk) (t4 : Triangle4 Triangle) (i : Lane) :
  msb (lane (m_mask (PackData vertex_at stack t4)) i) = false.
Proof.
  destruct (PackData_mask_lane_cases stack t4 i) as [-> | ->]; reflexivity.
Qed.

Lemma PackData_mask_by_occupancy (stack : StackJunk) (t4 : Triangle4 Triangle) (i : Lane) :
  prefix_occupied (m_ori_pri t4) ->
  lane (m_mask (PackData vertex_at stack t4)) i =
  if occupied (lane (m_ori_pri t4) i) then 1333788672 else 0.
Proof.
  unfold prefix_occupied, PackData. cbn [m_mask].
  destruct (m_ori_pri t4) as [[a0|] [a1|] [a2|] [a3|]];
    cbn [occupied q0 q1 q2 q3]; intros (H1 & H2 & H3);
    try (discriminate (H1 eq_refl)); try (discriminate (H2 eq_refl));
    try (discriminate (H3 eq_refl));
    destruct i;
    cbn [pack_loop all_lanes lane q0 q1 q2 q3 pack_lane a_mask set_lane pack_init
         _mm_set_ps occupied];
    rewrite ?of_uint_all_ones, ?of_uint_0; reflexivity.
Qed.

Lemma PackData_ori_pri (stack : StackJunk) (t4 : Triangle4 Triangle) :
  m_ori_pri (PackData vertex_at stack t4) = m_ori_pri t4.
Proof. reflexivity. Qed.

Lemma push_keeps_prefix (tri : option Triangle) (t4 : Triangle4 Triangle) :
  prefix_occupied (m_ori_pri t4) ->
  prefix_occupied (m_ori_pri (snd (PushTriangle tri t4))).
Proof.
  unfold prefix_occupied, PushTriangle.
  destruct (m_ori_pri t4) as [[a0|] [a1|] [a2|] [a3|]], tri as [x|];
    cbn; intuition congruence.
Qed.

Lemma do_call_keeps_prefix (c : call Triangle) (t4 : Triangle4 Triangle) :
  prefix_occupied (m_ori_pri t4) ->
  prefix_occupied (m_ori_pri (do_call vertex_at t4 c)).
Proof.
  destruct c as [tri | stack | ]; cbn [do_call].
  - apply push_keeps_prefix.
  - rewrite PackData_ori_pri. trivial.
  - intros _. unfold prefix_occupied. cbn. intuition.
Qed.

Lemma run_calls_keeps_prefix (cs : list (call Triangle)) (t4 : Triangle4 Triangle) :
  prefix_occupied (m_ori_pri t4) ->
  prefix_occupied (m_ori_pri (run_calls vertex_at cs t4)).
Proof.
  revert t4. induction cs as [| c cs IH]; intros t4 H; cbn [run_calls fold_left].
  - exact H.
  - apply IH. apply do_call_keeps_prefix. exact H.
Qed.

Lemma count_occupied_le_4 (pri : Quad (option Triangle)) :
  (count_occupied pri <= 4)%nat.
Proof.
  unfold count_occupied.
  destruct (occupied (q0 pri)), (occupied (q1 pri)),
           (occupied (q2 pri)), (occupied (q3 pri)); cbn; lia.
Qed.

Lemma push_when_full (tri : option Triangle) (t4 : Triangle4 Triangle) :
  count_occupied (m_ori_pri t4) = 4%nat ->
  PushTriangle tri t4 = (true, with_ori_pri t4 (set_lane (m_ori_pri t4) L3 tri)).
Proof.
  unfold count_occupied, PushTriangle.
  destruct (m_ori_pri t4) as [[a0|] [a1|] [a2|] [a3|]]; cbn; intros H;
    try reflexivity; discriminate H.
Qed.

End Container.

(** A packed container never gets past line 173: no lane of the mask that
    PackData builds has its sign bit set, so the first [_mm_movemask_ps] is
    already 0. *)
Lemma packed_batch_stops_at_inside_stage
    {Triangle : Type} (vertex_at : Triangle -> nat -> MeshVertex)
    (stack : StackJunk) (t4 : Triangle4 Triangle) (e0 e1 e2 : m128) :
  _mm_movemask_ps (inside_stage (m_mask (PackData vertex_at stack t4)) e0 e1 e2) = 0.
Proof.
  apply movemask_dead. intros i.
  rewrite inside_stage_lane, msb_land, PackData_mask_unsigned. reflexivity.
Qed.

(** ** Scenario 1 in a batch (C1) *)

(** With z as forward axis and no shear, lane 0 of the scenario-1 batch
    gets e0 = 0, e1 = -2, e2 = 2: line 151 loads vertex 1 a second time in
    place of vertex 2, so e0 is p1 x p1 and e2 is the opposite of e1. *)
Example scenario1_edge_functions :
  let s := shear_vertices Scenario.ray1_prepared
             (Scenario.batch1 Scenario.no_junk Scenario.blank) in
  lane (edge0 s) L0 = zero
  /\ lane (edge1 s) L0 = fsub zero two
  /\ lane (edge2 s) L0 = two
  /\ lane (determinant (edge0 s) (edge1 s) (edge2 s)) L0 = zero.
Proof. vm_compute. repeat split. Qed.

(** C1 (the code departs from the claim). Scenario 3 of the specification
    run on the code: the triangle (-1,-1,0), (1,-1,0), (0,1,0) pushed into
    lane 0 of an empty container and packed, the ray of origin (0,0,-5)
    and direction (0,0,1), any interval, any axis permutation and shear,
    any hit record.  The call returns false and leaves the hit record as it
    was; it does not return true with t = 5. *)
Theorem scenario1_batch_reports_no_hit
    (rcp : bits -> bits) (VM : VectorMath)
    (stack : StackJunk) (regs : Triangle4 Scenario.FlatTriangle)
    (fMin fMax : bits) (lx ly lz : Axis) (sx sy sz : m128)
    (hit : Intersection.T) :
  intersectTriangle4 Scenario.flat_vertex_at rcp
    (Scenario.ray1 fMin fMax lx ly lz sx sy sz)
    (Scenario.batch1 stack regs) (Some hit)
  = Returned false (Some hit).
Proof. apply stops_at_determinant. Qed.

(** ** The validity mask written by PackData (C2) *)

(** C2 (the code departs from the claim). After one PushTriangle and
    PackData, back-reference 0 is non-null, yet mask lane 0 holds
    0x4F800000, the bit pattern of the float 4294967296.0, and not the
    all-ones pattern: its sign bit is clear.  The empty lanes 1..3 hold
    all-zeros as claimed. *)
Theorem PackData_occupied_lane_not_all_ones
    {Triangle : Type} (vertex_at : Triangle -> nat -> MeshVertex)
    (stack : StackJunk) (regs : Triangle4 Triangle) (tri : Triangle) :
  let t4 := PackData vertex_at stack (snd (PushTriangle (Some tri) (fresh regs))) in
  lane (m_ori_pri t4) L0 = Some tri
  /\ lane (m_mask t4) L0 = 1333788672
  /\ lane (m_mask t4) L0 <> all_ones
  /\ msb (lane (m_mask t4) L0) = false
  /\ lane (m_mask t4) L1 = 0 /\ lane (m_mask t4) L2 = 0 /\ lane (m_mask t4) L3 = 0.
Proof.
  cbn zeta.
  assert (P : prefix_occupied (m_ori_pri (snd (PushTriangle (Some tri) (fresh regs))))).
  { unfold prefix_occupied. cbn. intuition congruence. }
  rewrite !(PackData_mask_by_occupancy vertex_at stack _ _ P).
  cbn. repeat split; try reflexivity. discriminate.
Qed.

(** ** The inside-triangle stage (C3) *)

(** C3 (the code departs from the claim). Three edge functions that are
    all strictly positive (1, 2, 3), or all strictly negative, share one
    sign, yet the inside stage clears the lane whatever the incoming mask:
    line 170 intersects the all-nonnegative test with the all-nonpositive
    test where the claim needs their union. *)
Theorem inside_stage_rejects_same_sign (mask : m128) :
  inside_stage mask (_mm_set_ps1 one) (_mm_set_ps1 two) (_mm_set_ps1 three)
    = _mm_set_ps1 0
  /\ inside_stage mask (_mm_set_ps1 neg_one) (_mm_set_ps1 neg_one) (_mm_set_ps1 neg_five)
    = _mm_set_ps1 0.
Proof.
  split; apply quad_ext; intros i;
    rewrite inside_stage_lane, !lane_set_ps1;
    match goal with
    | |- Z.land _ ?c = _ => replace c with 0 by (vm_compute; reflexivity)
    end;
    apply Z.land_0_r.
Qed.

(** ** Lines 186-189 taken alone *)

Lemma fmul_zero_l (a : bits) :
  fmul zero a = 0 \/ fmul zero a = 2147483648 \/ fmul zero a = default_nan.
Proof.
  unfold fmul, lift2. rewrite decode_zero.
  destruct (decode a) as [s | s | | s m e]; cbn [SFmul xorb];
    try destruct s; vm_compute; auto.
Qed.

(** Lines 186-189 taken alone, on register values set by hand (no call
    reaches these lines, see [determinant_stage_and_distance] below): with
    e0 = e1 = e2 = 1 and shear-adjusted y-coordinates -1, 0, 0 the formula
    (e0*p0_y + e1*p1_y + e2*p2_y) / determinant gives -1/3, while line 186
    adds e0 and p0_y, so that the numerator is 0 and t a zero or a NaN. *)
Remark candidate_t_adds_e0 (rcp_det : m128) (i : Lane) :
  let e := _mm_set_ps1 one in
  let py0 := _mm_set_ps1 neg_one in
  let py := _mm_set_ps1 zero in
  lane (determinant e e e) i = three
  /\ spec_candidate_t one one one three neg_one zero zero = 3198855851
  /\ lane (candidate_t e e e rcp_det py0 py py) i
     <> spec_candidate_t one one one three neg_one zero zero.
Proof.
  cbn zeta. split; [destruct i; vm_compute; reflexivity |].
  split; [vm_compute; reflexivity |].
  replace (spec_candidate_t one one one three neg_one zero zero) with 3198855851
    by (vm_compute; reflexivity).
  unfold candidate_t, _mm_add_ps, _mm_mul_ps.
  rewrite !lane_map2, !lane_set_ps1.
  replace (fadd (fadd (fadd one neg_one) (fmul one zero)) (fmul one zero)) with zero
    by (vm_compute; reflexivity).
  destruct (fmul_zero_l (lane rcp_det i)) as [-> | [-> | ->]]; discriminate.
Qed.

(** ** The lane reduction after the bound stage *)

Lemma reduce_step_skips (b_mask : Quad Z) (f_t : Quad bits) (i : Lane) (idx : Z) :
  (lane b_mask i <> 0 -> fgt (lane f_t i) zero = true) ->
  reduce_step b_mask f_t i idx (-1, neg_one) = (-1, neg_one).
Proof.
  intros H. unfold reduce_step. cbn [snd].
  destruct (Z.eqb_spec (lane b_mask i) 0) as [E | N]; [reflexivity |].
  rewrite (positive_not_below_neg_one _ (H N)). reflexivity.
Qed.

Lemma bound_stage_positive (mask t : m128) (ret_t : bits) (i : Lane) :
  lane (bound_stage mask t ret_t) i <> 0 -> fgt (lane t i) zero = true.
Proof.
  rewrite bound_stage_lane. intros H.
  apply land_nonzero in H. destruct H as [H _].
  apply land_nonzero in H. destruct H as [_ H].
  apply bool_mask_nonzero in H. exact H.
Qed.

(** X14. Lines 201 and 216-235 composed, for any incoming mask and t
    values: whatever lanes are still set after the caller-bound stage, the
    reduction selects none of them.  [res_t] starts at -1.0f and a t that
    passed line 201 is positive, so [res_t > f_t[i]] never holds, [res_i]
    stays -1 and line 235 subscripts [m_ori_pri] out of bounds. *)
Theorem reduction_selects_no_lane
    {Triangle : Type} (vertex_at : Triangle -> nat -> MeshVertex) (VM : VectorMath)
    (mask t : m128) (ret_t : bits)
    (ray : Ray) (tri4 : Triangle4 Triangle) (f_e1 f_e2 f_rcp_det : Quad bits) :
  reduce_lanes (bound_stage mask t ret_t) t = (-1, neg_one)
  /\ resolve_hit vertex_at ray tri4 f_e1 f_e2 f_rcp_det (-1) neg_one = Undefined.
Proof.
  split; [| reflexivity].
  unfold reduce_lanes. cbn zeta.
  rewrite !reduce_step_skips by apply bound_stage_positive.
  reflexivity.
Qed.

(** The reduction on four enabled lanes with t = 2, 1, 1, 3. *)
Example reduction_on_tied_lanes :
  reduce_lanes (mkQuad all_ones all_ones all_ones all_ones) (mkQuad two one one three)
  = (-1, neg_one).
Proof. vm_compute. reflexivity. Qed.

(** ** The range stages *)

(** X15. The two range stages (lines 191-193 and 201), for any incoming
    mask and t values: a lane that is still set after both has a t strictly
    above the ray's t_min, strictly below its t_max, strictly positive, and
    less than or equal to the hit record's t before the call. *)
Theorem surviving_lane_within_bounds
    (mask t : m128) (fMin fMax ret_t : bits) (i : Lane) :
  lane (bound_stage (interval_stage mask t fMin fMax) t ret_t) i <> 0 ->
  fgt (lane t i) fMin = true
  /\ flt (lane t i) fMax = true
  /\ fgt (lane t i) zero = true
  /\ fle (lane t i) ret_t = true.
Proof.
  rewrite bound_stage_lane, interval_stage_lane. intros H.
  apply land_nonzero in H. destruct H as [H Hle].
  apply land_nonzero in H. destruct H as [H Hpos].
  apply land_nonzero in H. destruct H as [H Hmax].
  apply land_nonzero in H. destruct H as [_ Hmin].
  auto using bool_mask_nonzero.
Qed.

Lemma surviving_lane_within_bounds_witness :
  lane (bound_stage (interval_stage (_mm_set_ps1 all_ones) (_mm_set_ps1 five) zero eight)
                    (_mm_set_ps1 five) eight) L0 <> 0
  /\ fgt five zero = true /\ flt five eight = true /\ fle five eight = true.
Proof.
  assert (H : lane (bound_stage (interval_stage (_mm_set_ps1 all_ones) (_mm_set_ps1 five)
                                                zero eight)
                                (_mm_set_ps1 five) eight) L0 <> 0)
    by (vm_compute; discriminate).
  split; [exact H |].
  destruct (surviving_lane_within_bounds _ _ _ _ _ _ H) as (A & B & _ & D).
  repeat split; assumption.
Defined.

(** The bound of line 201 is not strict: a lane whose t equals the hit
    record's current t (both 5, interval (0, 8)) stays set, since the
    comparison is [_mm_cmple_ps]. *)
Remark equal_t_survives_bound_stage :
  ~ (forall (mask t : m128) (fMin fMax ret_t : bits) (i : Lane),
       lane (bound_stage (interval_stage mask t fMin fMax) t ret_t) i <> 0 ->
       flt (lane t i) ret_t = true
       /\ fgt (lane t i) fMin = true
       /\ flt (lane t i) fMax = true).
Proof.
  intros H.
  destruct (H (_mm_set_ps1 all_ones) (_mm_set_ps1 five) zero eight five L0) as [A _].
  - vm_compute. discriminate.
  - vm_compute in A. discriminate A.
Qed.

(** ** Failed calls leave the hit record alone (C7) *)

(** C7. Whenever intersectTriangle4 returns false, the hit record it was
    given is the one it leaves: every [return false] of the function comes
    before the first write through [ret]. *)
Theorem false_leaves_hit_untouched
    {Triangle : Type} (vertex_at : Triangle -> nat -> MeshVertex)
    (rcp : bits -> bits) (VM : VectorMath)
    (ray : Ray) (tri4 : Triangle4 Triangle) (ret ret' : option Intersection.T) :
  intersectTriangle4 vertex_at rcp ray tri4 ret = Returned false ret' ->
  ret' = ret.
Proof.
  unfold intersectTriangle4.
  destruct (_mm_movemask_ps _ =? 0); [intros [= <-]; reflexivity |].
  destruct (_mm_movemask_ps _ =? 0); [intros [= <-]; reflexivity |].
  destruct (_mm_movemask_ps _ =? 0); [intros [= <-]; reflexivity |].
  destruct ret as [hit |]; [| discriminate].
  destruct (_mm_movemask_ps _ =? 0); [intros [= <-]; reflexivity |].
  destruct (reduce_lanes _ _) as [res_i res_t]. unfold resolve_hit.
  destruct (subscript (m_ori_pri tri4) res_i) as [[triangle |] |];
    [| discriminate | discriminate].
  destruct (subscript (edge1 _) res_i); [| discriminate].
  destruct (subscript (edge2 _) res_i); [| discriminate].
  destruct (subscript (_mm_rcp_ps _ _) res_i); discriminate.
Qed.

Lemma false_leaves_hit_untouched_witness :
  let hit := Scenario.hit_with_bound eight in
  intersectTriangle4 (VM := Scenario.plain_math)
    Scenario.flat_vertex_at Scenario.exact_rcp
    Scenario.ray1_prepared (Scenario.batch1 Scenario.no_junk Scenario.blank) (Some hit)
  = Returned false (Some hit)
  /\ Some hit = Some hit.
Proof.
  cbn zeta.
  assert (H : intersectTriangle4 (VM := Scenario.plain_math)
                Scenario.flat_vertex_at Scenario.exact_rcp
                Scenario.ray1_prepared (Scenario.batch1 Scenario.no_junk Scenario.blank)
                (Some (Scenario.hit_with_bound eight))
              = Returned false (Some (Scenario.hit_with_bound eight)))
    by (vm_compute; reflexivity).
  split; [exact H |].
  exact (false_leaves_hit_untouched _ _ _ _ _ _ _ H).
Defined.

(** ** Reset (C8) *)

(** C8. On a container whose last mutation was Reset, intersectTriangle4
    returns false for every ray and every hit record (null or not) and
    leaves the record as it was; Reset sets the four back-references to
    null and changes none of the nine coordinate registers (nor the mask
    register). *)
Theorem reset_then_intersect_misses
    {Triangle : Type} (vertex_at : Triangle -> nat -> MeshVertex)
    (rcp : bits -> bits) (VM : VectorMath)
    (ray : Ray) (tri4 : Triangle4 Triangle) (ret : option Intersection.T) :
  intersectTriangle4 vertex_at rcp ray (Reset tri4) ret = Returned false ret
  /\ m_ori_pri (Reset tri4) = mkQuad None None None None
  /\ m_p0_x (Reset tri4) = m_p0_x tri4 /\ m_p0_y (Reset tri4) = m_p0_y tri4
  /\ m_p0_z (Reset tri4) = m_p0_z tri4
  /\ m_p1_x (Reset tri4) = m_p1_x tri4 /\ m_p1_y (Reset tri4) = m_p1_y tri4
  /\ m_p1_z (Reset tri4) = m_p1_z tri4
  /\ m_p2_x (Reset tri4) = m_p2_x tri4 /\ m_p2_y (Reset tri4) = m_p2_y tri4
  /\ m_p2_z (Reset tri4) = m_p2_z tri4
  /\ m_mask (Reset tri4) = m_mask tri4.
Proof.
  split; [apply stops_at_determinant |].
  repeat split.
Qed.

(** ** Capacity and fill order (C10) *)

(** C10. After any trace of PushTriangle, PackData and Reset calls on a
    default-constructed container, at most four back-references are held
    and the occupied lanes form a prefix starting at lane 0; and when all
    four lanes are occupied, one more PushTriangle returns true, stores the
    new pointer in lane 3 and leaves lanes 0 to 2 as they were. *)
Theorem capacity_and_fill_order
    {Triangle : Type} (vertex_at : Triangle -> nat -> MeshVertex)
    (regs : Triangle4 Triangle) (cs : list (call Triangle)) (tri : option Triangle) :
  let t4 := run_calls vertex_at cs (fresh regs) in
  (count_occupied (m_ori_pri t4) <= 4)%nat
  /\ prefix_occupied (m_ori_pri t4)
  /\ (count_occupied (m_ori_pri t4) = 4%nat ->
      fst (PushTriangle tri t4) = true
      /\ lane (m_ori_pri (snd (PushTriangle tri t4))) L3 = tri
      /\ lane (m_ori_pri (snd (PushTriangle tri t4))) L0 = lane (m_ori_pri t4) L0
      /\ lane (m_ori_pri (snd (PushTriangle tri t4))) L1 = lane (m_ori_pri t4) L1
      /\ lane (m_ori_pri (snd (PushTriangle tri t4))) L2 = lane (m_ori_pri t4) L2).
Proof.
  cbn zeta. split; [apply count_occupied_le_4 |].
  split.
  - apply run_calls_keeps_prefix. unfold prefix_occupied. cbn. intuition.
  - intros Hfull. rewrite (push_when_full tri _ Hfull). cbn. repeat split.
Qed.

Lemma capacity_and_fill_order_witness :
  let push := CallPush (Some Scenario.triangle1) in
  let t4 := run_calls Scenario.flat_vertex_at [push; push; push; push]
              (fresh Scenario.blank) in
  count_occupied (m_ori_pri t4) = 4%nat
  /\ fst (PushTriangle (Some Scenario.sliver) t4) = true
  /\ lane (m_ori_pri (snd (PushTriangle (Some Scenario.sliver) t4))) L3
     = Some Scenario.sliver.
Proof.
  cbn zeta.
  assert (H : count_occupied
                (m_ori_pri (run_calls Scenario.flat_vertex_at
                              [CallPush (Some Scenario.triangle1);
                               CallPush (Some Scenario.triangle1);
                               CallPush (Some Scenario.triangle1);
                               CallPush (Some Scenario.triangle1)]
                              (fresh Scenario.blank))) = 4%nat) by reflexivity.
  split; [exact H |].
  destruct (capacity_and_fill_order Scenario.flat_vertex_at Scenario.blank
              [CallPush (Some Scenario.triangle1); CallPush (Some Scenario.triangle1);
               CallPush (Some Scenario.triangle1); CallPush (Some Scenario.triangle1)]
              (Some Scenario.sliver)) as (_ & _ & K).
  destruct (K H) as (A & B & _).
  split; assumption.
Defined.

(** * Further properties of the sources *)

(** ** Order facts of binary32 comparisons *)

Lemma SFcompare_rank (a b : spec_float) :
  not_nan a -> not_nan b ->
  match SFcompare a b with
  | Some Lt => lex_lt (rank a) (rank b)
  | Some Eq => rank a = rank b
  | Some Gt => lex_lt (rank b) (rank a)
  | None => False
  end.
Proof.
  unfold not_nan.
  destruct a as [sa | sa | | sa ma ea], b as [sb | sb | | sb mb eb];
    intros Ha Hb; try congruence;
    try (destruct sa); try (destruct sb); cbn [SFcompare rank lex_lt];
    try reflexivity; try lia.
  - change (Pos.compare_cont Eq ma mb) with (Pos.compare ma mb).
    destruct (Z.compare_spec ea eb); [| lia | lia].
    destruct (Pos.compare_spec ma mb); cbn [CompOpp]; [congruence | lia | lia].
  - change (Pos.compare_cont Eq ma mb) with (Pos.compare ma mb).
    destruct (Z.compare_spec ea eb); [| lia | lia].
    destruct (Pos.compare_spec ma mb); [congruence | lia | lia].
Qed.

Lemma SFltb_rank (a b : spec_float) :
  SFltb a b = true <-> not_nan a /\ not_nan b /\ lex_lt (rank a) (rank b).
Proof.
  unfold SFltb. split.
  - intros H.
    assert (Ha : not_nan a) by (intros ->; discriminate H).
    assert (Hb : not_nan b) by (intros ->; destruct a; discriminate H).
    pose proof (SFcompare_rank a b Ha Hb) as R.
    destruct (SFcompare a b) as [[| |] |]; try discriminate H. auto.
  - intros (Ha & Hb & L). pose proof (SFcompare_rank a b Ha Hb) as R.
    destruct (SFcompare a b) as [[| |] |]; [| reflexivity | |];
      exfalso; destruct (rank a) as [[c1 e1] m1], (rank b) as [[c2 e2] m2];
      cbn [lex_lt] in *; try (injection R as -> -> ->); try lia; try contradiction.
Qed.

Lemma SFleb_rank (a b : spec_float) :
  SFleb a b = true <-> not_nan a /\ not_nan b /\ lex_le (rank a) (rank b).
Proof.
  unfold SFleb. split.
  - intros H.
    assert (Ha : not_nan a) by (intros ->; discriminate H).
    assert (Hb : not_nan b) by (intros ->; destruct a; discriminate H).
    pose proof (SFcompare_rank a b Ha Hb) as R.
    destruct (SFcompare a b) as [[| |] |]; try discriminate H;
      split; [exact Ha | split; [exact Hb |] | exact Ha | split; [exact Hb |]];
      destruct (rank a) as [[c1 e1] m1], (rank b) as [[c2 e2] m2];
      cbn [lex_lt lex_le] in *; try (injection R as -> -> ->); lia.
  - intros (Ha & Hb & L). pose proof (SFcompare_rank a b Ha Hb) as R.
    destruct (SFcompare a b) as [[| |] |]; [reflexivity | reflexivity | |];
      exfalso; try contradiction;
      destruct (rank a) as [[c1 e1] m1], (rank b) as [[c2 e2] m2];
      cbn [lex_lt lex_le] in *; lia.
Qed.

Lemma flt_trans (a b c : bits) : flt a b = true -> flt b c = true -> flt a c = true.
Proof.
  unfold flt. rewrite !SFltb_rank. intros (Ha & Hb & L1) (_ & Hc & L2).
  split; [exact Ha | split; [exact Hc |]].
  destruct (rank (decode a)) as [[c1 e1] m1], (rank (decode b)) as [[c2 e2] m2],
           (rank (decode c)) as [[c3 e3] m3].
  cbn [lex_lt] in *. lia.
Qed.

Lemma fle_flt_trans (a b c : bits) : fle a b = true -> flt b c = true -> flt a c = true.
Proof.
  unfold flt, fle. rewrite !SFltb_rank, SFleb_rank. intros (Ha & Hb & L1) (_ & Hc & L2).
  split; [exact Ha | split; [exact Hc |]].
  destruct (rank (decode a)) as [[c1 e1] m1], (rank (decode b)) as [[c2 e2] m2],
           (rank (decode c)) as [[c3 e3] m3].
  cbn [lex_lt lex_le] in *. lia.
Qed.

Lemma flt_not_fle (a b : bits) : flt a b = true -> fle b a = false.
Proof.
  intros H. destruct (fle b a) eqn:E; [| reflexivity].
  exfalso. unfold flt, fle in *. rewrite SFltb_rank in H. rewrite SFleb_rank in E.
  destruct H as (_ & _ & L1), E as (_ & _ & L2).
  destruct (rank (decode a)) as [[c1 e1] m1], (rank (decode b)) as [[c2 e2] m2].
  cbn [lex_lt lex_le] in *. lia.
Qed.

Lemma flt_irrefl (a : bits) : flt a a = false.
Proof.
  destruct (flt a a) eqn:E; [| reflexivity].
  exfalso. unfold flt in E. rewrite SFltb_rank in E. destruct E as (_ & _ & L).
  destruct (rank (decode a)) as [[c1 e1] m1]. cbn [lex_lt] in L. lia.
Qed.

(** ** The strict-minimum search *)

Section Scan.
Context {A : Type}.

(** [scan] either keeps its starting state, and then no enabled candidate
    is below the starting bound, or it stops on one candidate that is below
    the starting bound, strictly below every enabled candidate before it
    and not above any enabled candidate after it. *)
Lemma scan_result (cands : list (bool * bits * A)) (best : option A) (t : bits) :
  (scan cands best t = (best, t)
   /\ forall c, In c cands -> enabled c = true -> flt (cand_t c) t = false)
  \/ (exists pre a post,
        cands = pre ++ (true, snd (scan cands best t), a) :: post
        /\ fst (scan cands best t) = Some a
        /\ flt (snd (scan cands best t)) t = true
        /\ (forall c, In c pre -> enabled c = true ->
                      fle (cand_t c) (snd (scan cands best t)) = false)
        /\ (forall c, In c post -> enabled c = true ->
                      flt (cand_t c) (snd (scan cands best t)) = false)).
Proof.
  revert best t. induction cands as [| [[ok tc] a] rest IH]; intros best t.
  - left. split; [reflexivity | intros c []].
  - cbn [scan]. destruct (ok && flt tc t) eqn:Take.
    + apply andb_prop in Take. destruct Take as [-> Lt].
      right. destruct (IH (Some a) tc) as [[E Hrest] | (pre & a' & post & E & Hf & Hl & Hpre & Hpost)].
      * exists [], a, rest. rewrite E. cbn [fst snd app].
        repeat split; [exact Lt | intros c [] | exact Hrest].
      * exists ((true, tc, a) :: pre), a', post.
        split; [cbn [app]; f_equal; exact E |].
        split; [exact Hf |].
        split; [exact (flt_trans _ _ _ Hl Lt) |].
        split; [| exact Hpost].
        intros c [<- | Hin] Hen; [apply flt_not_fle; exact Hl | apply Hpre; assumption].
    + destruct (IH best t) as [[E Hrest] | (pre & a' & post & E & Hf & Hl & Hpre & Hpost)].
      * left. split; [exact E |].
        intros c [<- | Hin] Hen; [| apply Hrest; assumption].
        cbn [enabled cand_t fst snd] in *. subst ok. exact Take.
      * right. exists ((ok, tc, a) :: pre), a', post.
        split; [cbn [app]; f_equal; exact E |].
        split; [exact Hf |]. split; [exact Hl |]. split; [| exact Hpost].
        intros c [<- | Hin] Hen; [| apply Hpre; assumption].
        cbn [enabled cand_t fst snd] in *. subst ok. cbn [andb] in Take.
        destruct (fle tc (snd (scan rest best t))) eqn:Le; [| reflexivity].
        rewrite (fle_flt_trans _ _ _ Le Hl) in Take. discriminate Take.
Qed.

End Scan.

Lemma scan_best {A} (cands : list (bool * bits * A)) (best : option A) (t : bits) :
  scan cands best t
  = (match fst (scan cands None t) with Some a => Some a | None => best end,
     snd (scan cands None t)).
Proof.
  revert best t. induction cands as [| [[ok tc] a] rest IH]; intros best t.
  - reflexivity.
  - cbn [scan]. destruct (ok && flt tc t).
    + rewrite (IH (Some a) tc). destruct (fst (scan rest None tc)); reflexivity.
    + apply IH.
Qed.

(** ** The lane reduction in general *)

Lemma reduce_lanes_scan (b_mask : Quad Z) (f_t : Quad bits) :
  reduce_lanes b_mask f_t
  = (match fst (scan (lane_cands b_mask f_t) None neg_one) with
     | Some i => lane_index i
     | None => -1
     end,
     snd (scan (lane_cands b_mask f_t) None neg_one)).
Proof.
  unfold reduce_lanes, reduce_step, lane_cands, all_lanes.
  cbn [map scan lane snd fst]. unfold fgt, flt.
  destruct (negb (q0 b_mask =? 0) && SFltb (decode (q0 f_t)) (decode neg_one));
    cbn [snd fst];
    destruct (negb (q1 b_mask =? 0) && SFltb (decode (q1 f_t)) _); cbn [snd fst];
    destruct (negb (q2 b_mask =? 0) && SFltb (decode (q2 f_t)) _); cbn [snd fst];
    destruct (negb (q3 b_mask =? 0) && SFltb (decode (q3 f_t)) _); reflexivity.
Qed.

Lemma enabled_lane (b_mask : Quad Z) (f_t : Quad bits) (j : Lane) :
  lane b_mask j <> 0 ->
  In (negb (lane b_mask j =? 0), lane f_t j, j) (lane_cands b_mask f_t)
  /\ enabled (negb (lane b_mask j =? 0), lane f_t j, j) = true.
Proof.
  intros H. split.
  - unfold lane_cands, all_lanes. destruct j; cbn [map In]; auto.
  - cbn [enabled fst]. destruct (Z.eqb_spec (lane b_mask j) 0); [contradiction | reflexivity].
Qed.

Lemma four_split {X} (c0 c1 c2 c3 x : X) (pre post : list X) :
  [c0; c1; c2; c3] = pre ++ x :: post ->
  (pre = [] /\ x = c0 /\ post = [c1; c2; c3])
  \/ (pre = [c0] /\ x = c1 /\ post = [c2; c3])
  \/ (pre = [c0; c1] /\ x = c2 /\ post = [c3])
  \/ (pre = [c0; c1; c2] /\ x = c3 /\ post = []).
Proof.
  destruct pre as [| p0 [| p1 [| p2 [| p3 pre]]]]; cbn [app]; intros E.
  - injection E as <- <-. auto.
  - injection E as <- <- <-. auto.
  - injection E as <- <- <- <-. auto 6.
  - injection E as <- <- <- <- <-. auto 8.
  - injection E as _ _ _ _ E. apply app_cons_not_nil in E. contradiction.
Qed.

(** X4. The lane reduction of lines 216-233, for any mask and any t values:
    either no enabled lane has a t below -1.0f and the result is
    (-1, -1.0f), or the result is the enabled lane [k] of minimal t and,
    among equals, of lowest index: every enabled lane before [k] has a
    strictly larger t (or a NaN) and no enabled lane after [k] has a
    smaller one. *)
Theorem reduce_lanes_lowest_minimum (b_mask : Quad Z) (f_t : Quad bits) :
  (reduce_lanes b_mask f_t = (-1, neg_one)
   /\ forall j, lane b_mask j <> 0 -> flt (lane f_t j) neg_one = false)
  \/ (exists k,
        reduce_lanes b_mask f_t = (lane_index k, lane f_t k)
        /\ lane b_mask k <> 0
        /\ flt (lane f_t k) neg_one = true
        /\ forall j, lane b_mask j <> 0 ->
             (lane_index j < lane_index k -> fle (lane f_t j) (lane f_t k) = false)
             /\ (lane_index k < lane_index j -> flt (lane f_t j) (lane f_t k) = false)).
Proof.
  rewrite reduce_lanes_scan.
  destruct (scan_result (lane_cands b_mask f_t) None neg_one)
    as [[E Hall] | (pre & a & post & E & Hf & Hl & Hpre & Hpost)].
  - left. rewrite E. split; [reflexivity |].
    intros j Hj. destruct (enabled_lane b_mask f_t j Hj) as [Hin Hen].
    exact (Hall _ Hin Hen).
  - right. rewrite Hf. cbn [fst].
    remember (snd (scan (lane_cands b_mask f_t) None neg_one)) as tf eqn:Etf.
    clear Etf Hf.
    assert (Hk : lane f_t a = tf /\ lane b_mask a <> 0
                 /\ forall j, lane b_mask j <> 0 ->
                      (lane_index j < lane_index a ->
                       In (negb (lane b_mask j =? 0), lane f_t j, j) pre)
                      /\ (lane_index a < lane_index j ->
                          In (negb (lane b_mask j =? 0), lane f_t j, j) post)).
    { unfold lane_cands, all_lanes in E. cbn [map] in E. clear Hpre Hpost Hl.
      apply four_split in E.
      destruct E as [(-> & E & ->) | [(-> & E & ->) | [(-> & E & ->) | (-> & E & ->)]]];
        injection E as Hm -> ->;
        (split; [reflexivity |]);
        (split; [symmetry in Hm; apply negb_true_iff in Hm; apply Z.eqb_neq in Hm; exact Hm |]);
        intros j Hj; destruct j; cbn [lane_index lane]; split; intros Hlt;
        try lia; cbn [In]; auto 6. }
    destruct Hk as (Et & Hb & Hpos). exists a. rewrite Et.
    split; [reflexivity |]. split; [exact Hb |]. split; [exact Hl |].
    intros j Hj. destruct (Hpos j Hj) as [P1 P2].
    destruct (enabled_lane b_mask f_t j Hj) as [_ Hen].
    split; intros Hlt.
    + exact (Hpre _ (P1 Hlt) Hen).
    + exact (Hpost _ (P2 Hlt) Hen).
Qed.

(** ** Scene: the brute-force search *)

Lemma to_int_small (n : Z) : 0 <= n < 2147483648 -> to_int n = n.
Proof.
  intros H. unfold to_int. rewrite Z.mod_small by lia.
  destruct (Z.ltb_spec n 2147483648); [reflexivity | lia].
Qed.

Section SceneFacts.
Context {Primitive Accelerator TriMesh : Type}.
Context (Primitive_GetIntersect : Primitive -> Ray -> Intersection.T -> bool * Intersection.T).
Context (Intersection_new : Intersection.T).
Context (Accelerator_GetIntersect : Accelerator -> Ray -> option Intersection.T -> outcome).

Local Abbreviation answer := (answer Primitive_GetIntersect Intersection_new).
Local Abbreviation cand_of := (cand_of Primitive_GetIntersect Intersection_new).
Local Abbreviation bf_loop := (bf_loop Primitive_GetIntersect Intersection_new).
Local Abbreviation GetIntersect :=
  (GetIntersect (TriMesh := TriMesh) Primitive_GetIntersect Intersection_new
                Accelerator_GetIntersect).

Lemma cand_of_eq (r : Ray) (p : Primitive) :
  cand_of r p
  = (fst (Primitive_GetIntersect p r Intersection_new),
     Intersection.t (snd (Primitive_GetIntersect p r Intersection_new)),
     snd (Primitive_GetIntersect p r Intersection_new)).
Proof. reflexivity. Qed.

Lemma visited_all (buf : list Primitive) :
  Z.of_nat (length buf) < 2147483648 -> visited buf = buf.
Proof.
  intros H. unfold visited. rewrite to_int_small by lia.
  rewrite Nat2Z.id. apply firstn_all.
Qed.

Lemma bf_loop_some (r : Ray) (buf : list Primitive) (b : bool) (t : bits)
    (cur : Intersection.T) :
  bf_loop r buf b t (Some cur)
  = Returned (b || occupied (fst (scan (map (cand_of r) buf) None t)))
             (Some (match fst (scan (map (cand_of r) buf) None t) with
                    | Some i => i
                    | None => cur
                    end)).
Proof.
  revert b t cur. induction buf as [| p rest IH]; intros b t cur.
  - cbn. rewrite orb_false_r. reflexivity.
  - cbn [bf_loop map]. rewrite (cand_of_eq r p).
    destruct (Primitive_GetIntersect p r Intersection_new) as [hit in_].
    cbn [scan fst snd]. destruct (hit && flt (Intersection.t in_) t).
    + rewrite IH, (scan_best _ (Some in_)). cbn [fst orb].
      destruct (fst (scan (map (cand_of r) rest) None (Intersection.t in_)));
        cbn [occupied]; rewrite orb_true_r; reflexivity.
    + apply IH.
Qed.

Lemma bf_loop_null (r : Ray) (buf : list Primitive) (b : bool) (t : bits) :
  bf_loop r buf b t None
  = match fst (scan (map (cand_of r) buf) None t) with
    | Some _ => Undefined
    | None => Returned b None
    end.
Proof.
  revert b t. induction buf as [| p rest IH]; intros b t.
  - reflexivity.
  - cbn [bf_loop map]. rewrite (cand_of_eq r p).
    destruct (Primitive_GetIntersect p r Intersection_new) as [hit in_].
    cbn [scan fst snd]. destruct (hit && flt (Intersection.t in_) t).
    + rewrite (scan_best _ (Some in_)). cbn [fst].
      destruct (fst (scan (map (cand_of r) rest) None (Intersection.t in_))); reflexivity.
    + apply IH.
Qed.

Lemma GetIntersect_init (sc : Scene Primitive Accelerator TriMesh) (r : Ray)
    (ret : option Intersection.T) :
  Z.of_nat (length (m_triBuf sc)) < 2147483648 ->
  GetIntersect (_init sc) r ret = bf_loop r (m_triBuf sc) false FLT_MAX ret.
Proof.
  intros H. unfold GetIntersect, _init, _bfIntersect. cbn [m_pAccelerator m_triBuf].
  rewrite visited_all by exact H. reflexivity.
Qed.

(** A candidate list split at a taken candidate, read back on the
    primitives. *)
Lemma split_primitives (r : Ray) (buf : list Primitive)
    (pre post : list (bool * bits * Intersection.T)) (tf : bits) (a : Intersection.T) :
  map (cand_of r) buf = pre ++ (true, tf, a) :: post ->
  exists bpre p bpost,
    buf = bpre ++ p :: bpost
    /\ answer r p = (true, a) /\ tf = Intersection.t a
    /\ map (cand_of r) bpre = pre /\ map (cand_of r) bpost = post.
Proof.
  intros E. apply map_eq_app in E. destruct E as (bpre & l2 & -> & Epre & E2).
  apply map_eq_cons in E2. destruct E2 as (p & bpost & -> & Ep & Epost).
  exists bpre, p, bpost. rewrite cand_of_eq in Ep.
  unfold answer. destruct (Primitive_GetIntersect p r Intersection_new) as [h i].
  cbn [fst snd] in Ep. injection Ep as -> <- ->. auto.
Qed.

Lemma cand_of_In (r : Ray) (l : list Primitive) (q : Primitive) :
  In q l -> In (cand_of r q) (map (cand_of r) l).
Proof. apply in_map. Qed.

(** X10. The scene reports the nearest primitive: when [GetIntersect] (no
    accelerator) returns true, [*intersect] is the answer of one primitive
    of the buffer that reported a hit with t below FLT_MAX; every hit
    reported by an earlier primitive is strictly farther (or has a NaN t),
    and no hit reported by a later primitive is nearer. *)
Theorem GetIntersect_reports_nearest
    (sc : Scene Primitive Accelerator TriMesh) (r : Ray) (i0 res : Intersection.T) :
  Z.of_nat (length (m_triBuf sc)) < 2147483648 ->
  GetIntersect (_init sc) r (Some i0) = Returned true (Some res) ->
  exists pre p post,
    m_triBuf sc = pre ++ p :: post
    /\ answer r p = (true, res)
    /\ flt (Intersection.t res) FLT_MAX = true
    /\ (forall q, In q pre -> fst (answer r q) = true ->
          fle (Intersection.t (snd (answer r q))) (Intersection.t res) = false)
    /\ (forall q, In q post -> fst (answer r q) = true ->
          flt (Intersection.t (snd (answer r q))) (Intersection.t res) = false).
Proof.
  intros Hn. rewrite (GetIntersect_init sc r _ Hn), bf_loop_some.
  destruct (scan_result (map (cand_of r) (m_triBuf sc)) None FLT_MAX)
    as [[E _] | (pre & a & post & E & Hf & Hl & Hpre & Hpost)].
  - rewrite E. cbn. discriminate.
  - rewrite Hf. cbn [orb occupied]. intros [= <-].
    destruct (split_primitives r _ _ _ _ _ E) as (bpre & p & bpost & Eb & Ea & Et & Mpre & Mpost).
    exists bpre, p, bpost. rewrite <- Et.
    split; [exact Eb |]. split; [exact Ea |]. split; [exact Hl |].
    split; intros q Hq Hhit.
    + apply (Hpre (cand_of r q)); [rewrite <- Mpre; apply cand_of_In; exact Hq | exact Hhit].
    + apply (Hpost (cand_of r q)); [rewrite <- Mpost; apply cand_of_In; exact Hq | exact Hhit].
Qed.

(** X11. A failed query leaves [*intersect] alone (null or not), and it fails
    only when no primitive of the buffer reports a hit with t below
    FLT_MAX. *)
Theorem GetIntersect_false_untouched
    (sc : Scene Primitive Accelerator TriMesh) (r : Ray) (ret ret' : option Intersection.T) :
  Z.of_nat (length (m_triBuf sc)) < 2147483648 ->
  GetIntersect (_init sc) r ret = Returned false ret' ->
  ret' = ret
  /\ forall q, In q (m_triBuf sc) -> fst (answer r q) = true ->
       flt (Intersection.t (snd (answer r q))) FLT_MAX = false.
Proof.
  intros Hn. rewrite (GetIntersect_init sc r _ Hn).
  destruct (scan_result (map (cand_of r) (m_triBuf sc)) None FLT_MAX)
    as [[E Hall] | (pre & a & post & E & Hf & _)].
  - intros H. split.
    + destruct ret as [cur |].
      * rewrite bf_loop_some, E in H. cbn in H. congruence.
      * rewrite bf_loop_null, E in H. cbn in H. congruence.
    + intros q Hq Hhit. apply (Hall (cand_of r q)); [apply cand_of_In; exact Hq | exact Hhit].
  - destruct ret as [cur |].
    + rewrite bf_loop_some, Hf. cbn. discriminate.
    + rewrite bf_loop_null, Hf. discriminate.
Qed.

(** X12. Completeness, and the null pointer: as soon as one primitive of the
    buffer reports a hit with t below FLT_MAX, the query returns true when
    [intersect] points to a record, and runs into the assignment through
    the null pointer when it does not. *)
Theorem GetIntersect_finds_any_hit
    (sc : Scene Primitive Accelerator TriMesh) (r : Ray) (i0 : Intersection.T)
    (q : Primitive) :
  Z.of_nat (length (m_triBuf sc)) < 2147483648 ->
  In q (m_triBuf sc) ->
  fst (answer r q) = true ->
  flt (Intersection.t (snd (answer r q))) FLT_MAX = true ->
  (exists res, GetIntersect (_init sc) r (Some i0) = Returned true (Some res))
  /\ GetIntersect (_init sc) r None = Undefined.
Proof.
  intros Hn Hq Hhit Hlt. rewrite !(GetIntersect_init sc r _ Hn), bf_loop_some, bf_loop_null.
  destruct (scan_result (map (cand_of r) (m_triBuf sc)) None FLT_MAX)
    as [[E Hall] | (pre & a & post & E & Hf & _)].
  - pose proof (Hall (cand_of r q) (cand_of_In r _ q Hq) Hhit) as Hno.
    cbn [cand_t cand_of fst snd] in Hno.
    congruence.
  - rewrite Hf. cbn [orb occupied]. split; [eexists; reflexivity | reflexivity].
Qed.

End SceneFacts.

(** ** More on the container *)

Section ContainerMore.
Context {Triangle : Type} (vertex_at : Triangle -> nat -> MeshVertex).

(** The nine coordinates PackData stores for one triangle. *)
Lemma PackData_lane_of_prefix (stack : StackJunk) (t4 : Triangle4 Triangle)
    (i : Lane) (tri : Triangle) :
  prefix_occupied (m_ori_pri t4) ->
  lane (m_ori_pri t4) i = Some tri ->
  let p := PackData vertex_at stack t4 in
  lane (m_p0_x p) i = c_x (m_position (vertex_at tri 0%nat))
  /\ lane (m_p0_y p) i = c_y (m_position (vertex_at tri 0%nat))
  /\ lane (m_p0_z p) i = c_z (m_position (vertex_at tri 0%nat))
  /\ lane (m_p1_x p) i = c_x (m_position (vertex_at tri 1%nat))
  /\ lane (m_p1_y p) i = c_y (m_position (vertex_at tri 1%nat))
  /\ lane (m_p1_z p) i = c_z (m_position (vertex_at tri 1%nat))
  /\ lane (m_p2_x p) i = c_x (m_position (vertex_at tri 2%nat))
  /\ lane (m_p2_y p) i = c_y (m_position (vertex_at tri 2%nat))
  /\ lane (m_p2_z p) i = c_z (m_position (vertex_at tri 2%nat)).
Proof.
  unfold prefix_occupied, PackData.
  destruct (m_ori_pri t4) as [[a0|] [a1|] [a2|] [a3|]];
    cbn [occupied q0 q1 q2 q3]; intros (H1 & H2 & H3);
    try (discriminate (H1 eq_refl)); try (discriminate (H2 eq_refl));
    try (discriminate (H3 eq_refl));
    destruct i; cbn [lane q0 q1 q2 q3]; intros E; try discriminate E;
    injection E as ->; cbn; repeat split.
Qed.

(** X5. PackData loads the vertex positions: in a container reached by any
    trace of calls, every occupied lane of the nine coordinate registers
    holds, after PackData, exactly the position of the corresponding vertex
    of that lane's triangle. *)
Theorem PackData_loads_positions
    (stack : StackJunk) (regs : Triangle4 Triangle) (cs : list (call Triangle))
    (i : Lane) (tri : Triangle) :
  let t4 := run_calls vertex_at cs (fresh regs) in
  lane (m_ori_pri t4) i = Some tri ->
  let p := PackData vertex_at stack t4 in
  lane (m_p0_x p) i = c_x (m_position (vertex_at tri 0%nat))
  /\ lane (m_p0_y p) i = c_y (m_position (vertex_at tri 0%nat))
  /\ lane (m_p0_z p) i = c_z (m_position (vertex_at tri 0%nat))
  /\ lane (m_p1_x p) i = c_x (m_position (vertex_at tri 1%nat))
  /\ lane (m_p1_y p) i = c_y (m_position (vertex_at tri 1%nat))
  /\ lane (m_p1_z p) i = c_z (m_position (vertex_at tri 1%nat))
  /\ lane (m_p2_x p) i = c_x (m_position (vertex_at tri 2%nat))
  /\ lane (m_p2_y p) i = c_y (m_position (vertex_at tri 2%nat))
  /\ lane (m_p2_z p) i = c_z (m_position (vertex_at tri 2%nat)).
Proof.
  intros t4 E. apply PackData_lane_of_prefix; [| exact E].
  apply run_calls_keeps_prefix. unfold prefix_occupied. cbn. intuition.
Qed.

(** X6. An empty lane is not initialised by PackData: its nine coordinates
    are whatever the uninitialised local arrays held, and its mask is 0. *)
Theorem PackData_empty_lane_uninitialised
    (stack : StackJunk) (t4 : Triangle4 Triangle) (i : Lane) :
  lane (m_ori_pri t4) i = None ->
  let p := PackData vertex_at stack t4 in
  lane (m_mask p) i = 0
  /\ lane (m_p0_x p) i = lane (j_p0_x stack) i
  /\ lane (m_p0_y p) i = lane (j_p0_y stack) i
  /\ lane (m_p0_z p) i = lane (j_p0_z stack) i
  /\ lane (m_p1_x p) i = lane (j_p1_x stack) i
  /\ lane (m_p1_y p) i = lane (j_p1_y stack) i
  /\ lane (m_p1_z p) i = lane (j_p1_z stack) i
  /\ lane (m_p2_x p) i = lane (j_p2_x stack) i
  /\ lane (m_p2_y p) i = lane (j_p2_y stack) i
  /\ lane (m_p2_z p) i = lane (j_p2_z stack) i.
Proof.
  unfold PackData.
  destruct (m_ori_pri t4) as [[a0|] [a1|] [a2|] [a3|]], i;
    cbn [lane q0 q1 q2 q3]; intros E; try discriminate E; cbn; repeat split.
Qed.

(** X7. The working form of the container invariant: after PackData on a
    container reached by any trace of calls, mask lane [i] is non-zero
    exactly when back-reference [i] is non-null. *)
Theorem PackData_mask_nonzero_iff_occupied
    (stack : StackJunk) (regs : Triangle4 Triangle) (cs : list (call Triangle)) (i : Lane) :
  let p := PackData vertex_at stack (run_calls vertex_at cs (fresh regs)) in
  lane (m_mask p) i <> 0 <-> occupied (lane (m_ori_pri p) i) = true.
Proof.
  cbn zeta. rewrite PackData_ori_pri, PackData_mask_by_occupancy.
  - destruct (occupied _); split; intros H; try reflexivity; try discriminate;
      exfalso; apply H; reflexivity.
  - apply run_calls_keeps_prefix. unfold prefix_occupied. cbn. intuition.
Qed.

Lemma push_counts (tri : option Triangle) (t4 : Triangle4 Triangle) :
  prefix_occupied (m_ori_pri t4) ->
  count_occupied (m_ori_pri (snd (PushTriangle tri t4)))
  = (if occupied tri then Nat.min 4 (S (count_occupied (m_ori_pri t4)))
     else Nat.min 3 (count_occupied (m_ori_pri t4)))
  /\ fst (PushTriangle tri t4) = (3 <=? count_occupied (m_ori_pri t4))%nat.
Proof.
  unfold prefix_occupied, PushTriangle, count_occupied.
  destruct (m_ori_pri t4) as [[a0|] [a1|] [a2|] [a3|]], tri as [x|];
    cbn; intros (H1 & H2 & H3);
    try (discriminate (H1 eq_refl)); try (discriminate (H2 eq_refl));
    try (discriminate (H3 eq_refl)); split; reflexivity.
Qed.

(** X8. PushTriangle of a non-null triangle, on a container reached by any
    trace of calls: the number of held triangles grows by one up to the
    capacity of four, and the returned value tells whether the container is
    full after the call. *)
Theorem PushTriangle_reports_full
    (regs : Triangle4 Triangle) (cs : list (call Triangle)) (tri : Triangle) :
  let t4 := run_calls vertex_at cs (fresh regs) in
  let n := count_occupied (m_ori_pri t4) in
  let n' := count_occupied (m_ori_pri (snd (PushTriangle (Some tri) t4))) in
  n' = Nat.min 4 (S n)
  /\ (fst (PushTriangle (Some tri) t4) = true <-> n' = 4%nat).
Proof.
  cbn zeta.
  destruct (push_counts (Some tri) (run_calls vertex_at cs (fresh regs))) as [Hc Hr].
  { apply run_calls_keeps_prefix. unfold prefix_occupied. cbn. intuition. }
  cbn [occupied] in Hc. rewrite Hc, Hr. split; [reflexivity |].
  pose proof (count_occupied_le_4 (m_ori_pri (run_calls vertex_at cs (fresh regs)))).
  rewrite Nat.leb_le. lia.
Qed.

(** X9. PushTriangle of a null pointer, on a container reached by any trace of
    calls: with fewer than three triangles nothing changes and false is
    returned; with three or four, lane 3 ends up null, three triangles are
    held, and true is returned although the container is not full. *)
Theorem PushTriangle_null
    (regs : Triangle4 Triangle) (cs : list (call Triangle)) :
  let t4 := run_calls vertex_at cs (fresh regs) in
  let n := count_occupied (m_ori_pri t4) in
  let n' := count_occupied (m_ori_pri (snd (PushTriangle None t4))) in
  n' = Nat.min 3 n
  /\ (fst (PushTriangle None t4) = true <-> (3 <= n)%nat)
  /\ ((n < 3)%nat -> m_ori_pri (snd (PushTriangle None t4)) = m_ori_pri t4)
  /\ ((3 <= n)%nat -> lane (m_ori_pri (snd (PushTriangle None t4))) L3 = None).
Proof.
  cbn zeta.
  assert (P : prefix_occupied (m_ori_pri (run_calls vertex_at cs (fresh regs)))).
  { apply run_calls_keeps_prefix. unfold prefix_occupied. cbn. intuition. }
  destruct (push_counts None _ P) as [Hc Hr].
  cbn [occupied] in Hc. rewrite Hc, Hr. split; [reflexivity |].
  split; [apply Nat.leb_le |].
  revert P. unfold prefix_occupied, PushTriangle, count_occupied.
  destruct (m_ori_pri (run_calls vertex_at cs (fresh regs))) as [[a0|] [a1|] [a2|] [a3|]];
    cbn; intros (H1 & H2 & H3);
    try (discriminate (H1 eq_refl)); try (discriminate (H2 eq_refl));
    try (discriminate (H3 eq_refl)); split; intros Hn; try reflexivity; lia.
Qed.

End ContainerMore.

(** ** More on intersectTriangle4 *)

(** X1. As written, intersectTriangle4 reports no hit at all: for every ray,
    every container content (packed or not) and every hit pointer (null or
    not) it returns false; it never returns true and never reaches the
    out-of-bounds read of line 235. *)
Theorem intersectTriangle4_never_hits
    {Triangle : Type} (vertex_at : Triangle -> nat -> MeshVertex)
    (rcp : bits -> bits) (VM : VectorMath)
    (ray : Ray) (tri4 : Triangle4 Triangle) (ret : option Intersection.T) :
  intersectTriangle4 vertex_at rcp ray tri4 ret <> Undefined
  /\ forall ret', intersectTriangle4 vertex_at rcp ray tri4 ret <> Returned true ret'.
Proof.
  rewrite stops_at_determinant. split; [| intros ret']; discriminate.
Qed.

Lemma is_zero_fge_fle (a : bits) : is_zero a -> fge a zero = true /\ fle a zero = true.
Proof.
  intros [s H]. unfold fge, fle. rewrite H, decode_zero. split; reflexivity.
Qed.

(** X2. The inside stage, exactly: a lane keeps its sign bit if and only if
    the incoming mask has it and the three edge functions are all zeros
    (of either sign). *)
Theorem inside_stage_passes_only_zero_edges (mask e0 e1 e2 : m128) (i : Lane) :
  msb (lane (inside_stage mask e0 e1 e2) i) = true
  <-> msb (lane mask i) = true
      /\ is_zero (lane e0 i) /\ is_zero (lane e1 i) /\ is_zero (lane e2 i).
Proof.
  split; [apply inside_stage_alive |].
  intros (Hm & H0 & H1 & H2).
  destruct (is_zero_fge_fle _ H0) as [A0 B0], (is_zero_fge_fle _ H1) as [A1 B1],
           (is_zero_fge_fle _ H2) as [A2 B2].
  rewrite inside_stage_lane, !msb_land, !msb_bool_mask, Hm, A0, A1, A2, B0, B1, B2.
  reflexivity.
Qed.

(** X3. The determinant stage on the determinant the function computes: for
    every ray and container, a lane is cleared unless its determinant is a
    NaN.  (Lines 151-153 make the determinant e0 + (e1 + e2) vanish
    identically; only an overflow to infinity minus infinity escapes the
    not-equal-to-zero test.) *)
Theorem det_stage_passes_only_nan
    {Triangle : Type} (ray : Ray) (tri4 : Triangle4 Triangle) (mask : m128) (i : Lane) :
  let s := shear_vertices ray tri4 in
  let det := determinant (edge0 s) (edge1 s) (edge2 s) in
  lane (det_stage mask det) i = 0 \/ decode (lane det i) = S754_nan.
Proof.
  cbn zeta. destruct (determinant_zero_or_nan ray tri4 i) as [Z | N].
  - left. apply det_stage_rejects_zero. exact Z.
  - right. exact N.
Qed.

(** ** Reflection *)

Lemma fneg_involutive (w : bits) : fneg (fneg w) = w.
Proof.
  unfold fneg. rewrite Z.lxor_assoc, Z.lxor_nilpotent. apply Z.lxor_0_r.
Qed.

Section ReflectionFacts.
Context {Spectrum Fresnel : Type}.
Context (Spectrum_div : Spectrum -> bits -> Spectrum).
Context (Fresnel_Evaluate : Fresnel -> bits -> bits -> Spectrum).
Context (CosTheta AbsCosTheta : Vector -> bits).

Local Abbreviation sample_f :=
  (Reflection_sample_f Spectrum_div Fresnel_Evaluate CosTheta AbsCosTheta).

(** X13. Mirror reflection: with a non-null Fresnel term, [sample_f] succeeds,
    ignores the incoming value of [wi], keeps the y component of [wo],
    leaves [*pdf] as it found it, and is an involution: sampling again from
    the direction it produced gives back [wo] bit for bit. *)
Theorem sample_f_mirror (fre : Fresnel) (wo wi0 wi1 : Vector) (pdf0 pdf1 : option bits) :
  exists s wi,
    sample_f (Some fre) wo wi0 pdf0 = Some (s, wi, pdf0)
    /\ c_y wi = c_y wo
    /\ c_x wi = fneg (c_x wo) /\ c_z wi = fneg (c_z wo)
    /\ exists s', sample_f (Some fre) wi wi1 pdf1 = Some (s', wo, pdf1).
Proof.
  unfold Reflection_sample_f. eexists. eexists. split; [reflexivity |].
  cbn [c_x c_y c_z]. repeat split.
  eexists. rewrite !fneg_involutive. destruct wo; reflexivity.
Qed.

End ReflectionFacts.

(** ** Evaluations on concrete inputs *)

Lemma PackData_loads_positions_witness :
  let t4 := run_calls Scenario.flat_vertex_at
              [CallPush (Some Scenario.sliver); CallPush (Some Scenario.triangle1)]
              (fresh Scenario.blank) in
  lane (m_ori_pri t4) L1 = Some Scenario.triangle1
  /\ lane (m_p2_y (PackData Scenario.flat_vertex_at Scenario.no_junk t4)) L1 = one.
Proof.
  cbn zeta.
  assert (H : lane (m_ori_pri (run_calls Scenario.flat_vertex_at
                                 [CallPush (Some Scenario.sliver);
                                  CallPush (Some Scenario.triangle1)]
                                 (fresh Scenario.blank))) L1
              = Some Scenario.triangle1) by reflexivity.
  split; [exact H |].
  pose proof (PackData_loads_positions Scenario.flat_vertex_at Scenario.no_junk
                Scenario.blank _ L1 Scenario.triangle1 H) as P.
  cbn zeta in P. destruct P as (_ & _ & _ & _ & _ & _ & _ & P & _). exact P.
Defined.

Lemma PackData_empty_lane_uninitialised_witness :
  let t4 := snd (PushTriangle (Some Scenario.triangle1) (fresh Scenario.blank)) in
  let junk := mkStackJunk (mkQuad one two three four) (mkQuad one two three four)
                (mkQuad one two three four) (mkQuad one two three four)
                (mkQuad one two three four) (mkQuad one two three four)
                (mkQuad one two three four) (mkQuad one two three four)
                (mkQuad one two three four) in
  lane (m_ori_pri t4) L2 = None
  /\ lane (m_mask (PackData Scenario.flat_vertex_at junk t4)) L2 = 0
  /\ lane (m_p0_x (PackData Scenario.flat_vertex_at junk t4)) L2 = three.
Proof.
  cbn zeta.
  assert (H : lane (m_ori_pri (snd (PushTriangle (Some Scenario.triangle1)
                                      (fresh Scenario.blank)))) L2 = None)
    by reflexivity.
  split; [exact H |].
  pose proof (PackData_empty_lane_uninitialised Scenario.flat_vertex_at
                (mkStackJunk (mkQuad one two three four) (mkQuad one two three four)
                   (mkQuad one two three four) (mkQuad one two three four)
                   (mkQuad one two three four) (mkQuad one two three four)
                   (mkQuad one two three four) (mkQuad one two three four)
                   (mkQuad one two three four)) _ L2 H) as P.
  cbn zeta in P. destruct P as (P0 & P1 & _). split; [exact P0 | exact P1].
Defined.

Lemma PushTriangle_null_witness :
  let t4 := run_calls Scenario.flat_vertex_at
              [CallPush (Some Scenario.triangle1)] (fresh Scenario.blank) in
  (count_occupied (m_ori_pri t4) < 3)%nat
  /\ m_ori_pri (snd (PushTriangle None t4)) = m_ori_pri t4.
Proof.
  cbn zeta.
  assert (H : (count_occupied
                 (m_ori_pri (run_calls Scenario.flat_vertex_at
                               [CallPush (Some Scenario.triangle1)]
                               (fresh Scenario.blank))) < 3)%nat)
    by (vm_compute; lia).
  split; [exact H |].
  exact (proj1 (proj2 (proj2 (PushTriangle_null Scenario.flat_vertex_at Scenario.blank
                                [CallPush (Some Scenario.triangle1)]))) H).
Defined.

(** With negative distances the reduction does select: lanes 0..2 enabled
    with t = -2, -3, -3, lane 3 disabled with t = -5; lane 1 wins. *)
Example reduction_below_minus_one :
  reduce_lanes (mkQuad all_ones all_ones all_ones 0)
               (mkQuad (fneg two) (fneg three) (fneg three) (fneg five))
  = (1, fneg three).
Proof. vm_compute. reflexivity. Qed.

(** The NaN case of the determinant stage is real: for a triangle at
    (2^127, 2^127, 0) the products overflow, the determinant is a NaN and
    the stage lets the lane through (the inside stage has cleared it
    before). *)
Example det_stage_nan_lane :
  let s := shear_vertices Scenario.ray1_prepared Overflow.far_batch in
  let det := determinant (edge0 s) (edge1 s) (edge2 s) in
  decode (lane det L0) = S754_nan
  /\ lane (det_stage (_mm_set_ps1 all_ones) det) L0 = all_ones
  /\ lane (inside_stage (_mm_set_ps1 all_ones) (edge0 s) (edge1 s) (edge2 s)) L0 = 0.
Proof. vm_compute. repeat split. Qed.

Lemma GetIntersect_reports_nearest_witness :
  let sc := SceneScenario.scene_of SceneScenario.probes in
  exists res pre p post,
    GetIntersect SceneScenario.probe_intersect SceneScenario.fresh_in
      SceneScenario.no_accel (_init sc) Scenario.ray1_prepared
      (Some SceneScenario.fresh_in) = Returned true (Some res)
    /\ Intersection.t res = three
    /\ m_triBuf sc = pre ++ p :: post
    /\ answer SceneScenario.probe_intersect SceneScenario.fresh_in
         Scenario.ray1_prepared p = (true, res).
Proof.
  cbn zeta.
  assert (Hn : Z.of_nat (length (m_triBuf (SceneScenario.scene_of SceneScenario.probes)))
               < 2147483648) by (vm_compute; reflexivity).
  assert (H : GetIntersect SceneScenario.probe_intersect SceneScenario.fresh_in
                SceneScenario.no_accel
                (_init (SceneScenario.scene_of SceneScenario.probes))
                Scenario.ray1_prepared (Some SceneScenario.fresh_in)
              = Returned true (Some (Scenario.hit_with_bound three)))
    by (vm_compute; reflexivity).
  destruct (GetIntersect_reports_nearest _ _ _ _ _ _ _ Hn H)
    as (pre & p & post & E & Ea & _).
  exists (Scenario.hit_with_bound three), pre, p, post.
  split; [exact H |]. split; [reflexivity |]. split; [exact E | exact Ea].
Defined.

Lemma GetIntersect_false_untouched_witness :
  let sc := SceneScenario.scene_of [(false, one); (true, FLT_MAX)] in
  GetIntersect SceneScenario.probe_intersect SceneScenario.fresh_in
    SceneScenario.no_accel (_init sc) Scenario.ray1_prepared None
  = Returned false None
  /\ None = (None : option Intersection.T).
Proof.
  cbn zeta.
  assert (Hn : Z.of_nat (length (m_triBuf (SceneScenario.scene_of
                                             [(false, one); (true, FLT_MAX)])))
               < 2147483648) by (vm_compute; reflexivity).
  assert (H : GetIntersect SceneScenario.probe_intersect SceneScenario.fresh_in
                SceneScenario.no_accel
                (_init (SceneScenario.scene_of [(false, one); (true, FLT_MAX)]))
                Scenario.ray1_prepared None
              = Returned false None)
    by (vm_compute; reflexivity).
  split; [exact H |].
  exact (proj1 (GetIntersect_false_untouched _ _ _ _ _ _ _ Hn H)).
Defined.

Lemma GetIntersect_finds_any_hit_witness :
  let sc := SceneScenario.scene_of SceneScenario.probes in
  (exists res,
     GetIntersect SceneScenario.probe_intersect SceneScenario.fresh_in
       SceneScenario.no_accel (_init sc) Scenario.ray1_prepared
       (Some SceneScenario.fresh_in) = Returned true (Some res))
  /\ GetIntersect SceneScenario.probe_intersect SceneScenario.fresh_in
       SceneScenario.no_accel (_init sc) Scenario.ray1_prepared None = Undefined.
Proof.
  cbn zeta.
  apply (GetIntersect_finds_any_hit SceneScenario.probe_intersect SceneScenario.fresh_in
           SceneScenario.no_accel (SceneScenario.scene_of SceneScenario.probes)
           Scenario.ray1_prepared SceneScenario.fresh_in (true, five)).
  - vm_compute. reflexivity.
  - left. reflexivity.
  - reflexivity.
  - vm_compute. reflexivity.
Defined.

(** * Whole calls: distance, winner, bounds and zero-area triangles *)










